(** * MKV chapter recognition and rewrite pipeline

    A shallow embedding of [auto_rename_mkv_chapters.py]: the sampling
    policy, the time-string helpers, the title-template engine, the
    chapter XML codec, audio-sample validation, configuration merging,
    backup restore and the per-file pipeline.

    Modelling conventions.
    - A Python [str] is a list of Unicode code points ([list N]); ASCII
      literals are written [lit "..."].
    - A Python [float] is an exact rational ([Q]); binary64 rounding is
      not modelled.  A Python [int] is a [Z].
    - JSON-shaped values ([dict], [list], [None], ...) are the inductive
      [pyval]; a [dict] is an association list in insertion order.
    - A raised exception is the [Raise] constructor of [result].
    - External programs (ffmpeg, mkvextract, mkvpropedit, the recognition
      service) are fields of a [world] record; every call is logged. *)

From Stdlib Require Import ZArith NArith QArith Qround Qminmax Lqa Lia.
From Stdlib Require Import List Bool String Ascii.
Import ListNotations.

Set Implicit Arguments.
Local Open Scope Q_scope.

(** ** Python strings *)

Module PyStr.

Definition char := N.
Definition str := list char.

Definition lit (s : string) : str :=
  map N_of_ascii (list_ascii_of_string s).

Fixpoint str_eqb (a b : str) : bool :=
  match a, b with
  | [], [] => true
  | x :: a', y :: b' => N.eqb x y && str_eqb a' b'
  | _, _ => false
  end.

(** [s.startswith(p)] *)
Fixpoint startswith (p s : str) : bool :=
  match p, s with
  | [], _ => true
  | x :: p', y :: s' => N.eqb x y && startswith p' s'
  | _ :: _, [] => false
  end.

(** [needle in hay] *)
Fixpoint contains (needle hay : str) : bool :=
  startswith needle hay ||
  match hay with
  | [] => false
  | _ :: t => contains needle t
  end.

(** [sep.join(parts)] *)
Fixpoint join (sep : str) (parts : list str) : str :=
  match parts with
  | [] => []
  | [p] => p
  | p :: rest => p ++ sep ++ join sep rest
  end.

(** [s.split(c)] for a one-character separator: never returns [[]]. *)
Fixpoint split (c : char) (s : str) : list str :=
  match s with
  | [] => [[]]
  | x :: t =>
      if N.eqb x c then [] :: split c t
      else match split c t with
           | [] => [[x]]
           | p :: ps => (x :: p) :: ps
           end
  end.

(** [str.isspace] on one code point; also the class [\s] of [re] on
    [str] patterns. *)
Definition isspace (c : char) : bool :=
  (((9 <=? c) && (c <=? 13)) || ((28 <=? c) && (c <=? 32))
   || (c =? 133) || (c =? 160) || (c =? 5760)
   || ((8192 <=? c) && (c <=? 8202))
   || (c =? 8232) || (c =? 8233) || (c =? 8239) || (c =? 8287)
   || (c =? 12288))%N.

Fixpoint lstrip (s : str) : str :=
  match s with
  | c :: t => if isspace c then lstrip t else s
  | [] => []
  end.

Definition rstrip (s : str) : str := rev (lstrip (rev s)).

(** [s.strip()] *)
Definition strip (s : str) : str := rstrip (lstrip s).

End PyStr.
Import PyStr.

(** ** Exceptions *)

Inductive exn : Type :=
| FileNotFoundError
| ValueError
| KeyError
| TypeError
| IndexError
| AttributeError
| RuntimeError
| AssertionError
| Unmodelled.  (* Python behaviour outside the modelled fragment *)

Inductive result (A : Type) : Type :=
| Ok (a : A)
| Raise (e : exn).
Arguments Ok {A} a.
Arguments Raise {A} e.

Definition bind {A B} (m : result A) (f : A -> result B) : result B :=
  match m with
  | Ok a => f a
  | Raise e => Raise e
  end.

Notation "x <- m ;; k" := (bind m (fun x => k))
  (at level 61, m at next level, right associativity).

(** The same type under a name that a Python variable called [result]
    does not hide. *)
Definition PyResult := result.

Definition is_ok {A} (m : result A) : bool :=
  match m with Ok _ => true | Raise _ => false end.

(** ** Sampling policy: [SamplingStrategy] and [RecognitionConfig] *)

Inductive SamplingStrategy : Type := START | MIDDLE | END_ | CUSTOM.

Record RecognitionConfig : Type := mkRecognitionConfig {
  strategy : SamplingStrategy;
  offset : Q;
  percentage : Q;
  duration : Z
}.

(** The dataclass defaults. *)
Definition default_config : RecognitionConfig :=
  mkRecognitionConfig START 5 (1 # 2) 3%Z.

(** Python's two-argument [max]: the first argument unless the second is
    strictly greater. *)
Definition py_max (a b : Q) : Q :=
  match a ?= b with
  | Lt => b
  | _ => a
  end.

(** The [if chapter_end is None: chapter_end = chapter_start + 180]
    prelude shared by three branches. *)
Definition end_or_default (chapter_start : Q) (chapter_end : option Q) : Q :=
  match chapter_end with
  | Some e => e
  | None => chapter_start + 180
  end.

(** The four strategies cover the enumeration, so the final
    [return chapter_start + self.offset] of the source is never
    reached. *)
Definition calculate_sample_time (self : RecognitionConfig)
    (chapter_start : Q) (chapter_end : option Q) : Q :=
  match strategy self with
  | START => chapter_start + offset self
  | MIDDLE =>
      let chapter_end := end_or_default chapter_start chapter_end in
      let mid_point := (chapter_start + chapter_end) / 2 in
      mid_point - (inject_Z (duration self) / 2)
  | END_ =>
      let chapter_end := end_or_default chapter_start chapter_end in
      py_max chapter_start (chapter_end - inject_Z (duration self) - 5)
  | CUSTOM =>
      let chapter_end := end_or_default chapter_start chapter_end in
      let chapter_duration := chapter_end - chapter_start in
      chapter_start + (chapter_duration * percentage self)
  end.

(** The sampling rules as the specification words them, one clause per
    strategy, unknown end replaced by start + 180 except for [start]. *)
Definition spec_sample_time (s : SamplingStrategy) (off pct : Q) (dur : Z)
    (chapterStart : Q) (chapterEnd : option Q) : Q :=
  let e := match chapterEnd with Some e => e | None => chapterStart + 180 end in
  match s with
  | START => chapterStart + off
  | MIDDLE => (chapterStart + e) / 2 - inject_Z dur / 2
  | END_ => Qmax chapterStart (e - inject_Z dur - 5)
  | CUSTOM => chapterStart + (e - chapterStart) * pct
  end.

(** ** Time strings: [MKVChapter.parse_time_to_seconds] and
    [MKVChapter.format_seconds_to_time] *)

(** Decimal digits of a natural number, most significant first. *)
Fixpoint uint_chars (d : Decimal.uint) : str :=
  match d with
  | Decimal.Nil => []
  | Decimal.D0 d => 48%N :: uint_chars d
  | Decimal.D1 d => 49%N :: uint_chars d
  | Decimal.D2 d => 50%N :: uint_chars d
  | Decimal.D3 d => 51%N :: uint_chars d
  | Decimal.D4 d => 52%N :: uint_chars d
  | Decimal.D5 d => 53%N :: uint_chars d
  | Decimal.D6 d => 54%N :: uint_chars d
  | Decimal.D7 d => 55%N :: uint_chars d
  | Decimal.D8 d => 56%N :: uint_chars d
  | Decimal.D9 d => 57%N :: uint_chars d
  end.

(** [str(n)] for an [int]. *)
Definition str_of_int (z : Z) : str :=
  if (z <? 0)%Z then 45%N :: uint_chars (N.to_uint (Z.to_N (- z)))
  else uint_chars (N.to_uint (Z.to_N z)).

(** The format spec [0{width}d]: sign first, then zeros up to [width]. *)
Definition fmt_0d (width : nat) (z : Z) : str :=
  let digits := uint_chars (N.to_uint (Z.to_N (Z.abs z))) in
  if (z <? 0)%Z
  then 45%N :: repeat 48%N (width - 1 - List.length digits) ++ digits
  else repeat 48%N (width - List.length digits) ++ digits.

Definition digit_val (c : char) : option Z :=
  if ((48 <=? c) && (c <=? 57))%N then Some (Z.of_N (c - 48)) else None.

Fixpoint digits_val (acc : Z) (s : str) : option Z :=
  match s with
  | [] => Some acc
  | c :: t =>
      match digit_val c with
      | Some d => digits_val (10 * acc + d) t
      | None => None
      end
  end.

(** [int(s)] on a non-empty run of ASCII digits.  Any other string is
    outside the model, whether Python rejects it or reads it (a sign,
    surrounding blanks, underscores, other scripts' digits). *)
Definition py_int (s : str) : result Z :=
  match s with
  | [] => Raise ValueError
  | _ => match digits_val 0 s with
         | Some z => Ok z
         | None => Raise Unmodelled
         end
  end.

(** [float(s)] on [digits], [digits.digits], [digits.] and [.digits],
    as an exact rational.  Any other string is outside the model,
    whether Python rejects it or reads it (a sign, an exponent,
    [inf], [nan], blanks, underscores). *)
Definition py_float (s : str) : result Q :=
  match split 46%N s with
  | [ip] => z <- py_int ip ;; Ok (inject_Z z)
  | [ip; fp] =>
      match ip, fp with
      | [], [] => Raise ValueError
      | _, _ =>
          match digits_val 0 ip, digits_val 0 fp with
          | Some i, Some f =>
              Ok (inject_Z i + inject_Z f / inject_Z (10 ^ Z.of_nat (List.length fp)))
          | _, _ => Raise Unmodelled
          end
      end
  | _ => Raise ValueError
  end.

(** [parts[i]] on a list: [IndexError] past the end. *)
Definition index {A} (l : list A) (i : nat) : result A :=
  match nth_error l i with
  | Some a => Ok a
  | None => Raise IndexError
  end.

Definition parse_time_to_seconds (time_str : str) : result Q :=
  let parts := split 58%N time_str in
  p0 <- index parts 0 ;;
  hours <- py_int p0 ;;
  p1 <- index parts 1 ;;
  minutes <- py_int p1 ;;
  p2 <- index parts 2 ;;
  seconds <- py_float p2 ;;
  Ok (inject_Z hours * 3600 + inject_Z minutes * 60 + seconds).

(** [datetime.timedelta]: normalised days, seconds in [0, 86400) and
    microseconds in [0, 10^6). *)
Record timedelta : Type := mkTimedelta {
  td_days : Z;
  td_seconds : Z;
  td_microseconds : Z
}.

(** Rounding to the nearest integer, ties to even. *)
Definition round_half_even (q : Q) : Z :=
  let f := Qfloor q in
  match ((q - inject_Z f) ?= (1 # 2))%Q with
  | Lt => f
  | Gt => (f + 1)%Z
  | Eq => if Z.even f then f else (f + 1)%Z
  end.

(** [timedelta(seconds=s)]: the value is rounded to the nearest
    microsecond (ties to even) and normalised. *)
Definition timedelta_of_seconds (s : Q) : timedelta :=
  let us := round_half_even (s * 1000000) in
  mkTimedelta (us / 86400000000)
              ((us mod 86400000000) / 1000000)
              (us mod 1000000).

Definition py_divmod (a b : Z) : Z * Z := ((a / b)%Z, (a mod b)%Z).

(** The four integers [format_seconds_to_time] prints:
    hours, minutes, seconds and milliseconds. *)
Definition time_fields (seconds : Q) : Z * Z * Z * Z :=
  let td := timedelta_of_seconds seconds in
  let '(hours, remainder) := py_divmod (td_seconds td) 3600 in
  let '(minutes, secs) := py_divmod remainder 60 in
  let millisecs := (td_microseconds td / 1000)%Z in
  (hours, minutes, secs, millisecs).

Definition format_seconds_to_time (seconds : Q) : str :=
  let '(hours, minutes, secs, millisecs) := time_fields seconds in
  fmt_0d 2 hours ++ lit ":" ++ fmt_0d 2 minutes ++ lit ":"
    ++ fmt_0d 2 secs ++ lit "." ++ fmt_0d 3 millisecs.


(** ** JSON-shaped Python values *)

#[warnings="-register-all"]
Inductive pyval : Type :=
| PNone
| PBool (b : bool)
| PInt (z : Z)
| PFloat (q : Q)
| PStr (s : str)
| PList (l : list pyval)
| PDict (d : list (str * pyval)).

(** Truth value of an object, as [if x:] and [not x] see it. *)
Definition truthy (v : pyval) : bool :=
  match v with
  | PNone => false
  | PBool b => b
  | PInt z => negb (z =? 0)%Z
  | PFloat q => negb (Qeq_bool q 0)
  | PStr s => match s with [] => false | _ => true end
  | PList l => match l with [] => false | _ => true end
  | PDict d => match d with [] => false | _ => true end
  end.

Fixpoint assoc (d : list (str * pyval)) (k : str) : option pyval :=
  match d with
  | [] => None
  | (k', v) :: t => if str_eqb k' k then Some v else assoc t k
  end.

(** [d.get(k, default)] *)
Definition dict_get (d : list (str * pyval)) (k : str) (default : pyval) : pyval :=
  match assoc d k with
  | Some v => v
  | None => default
  end.

(** [str(v)], as [str.format] renders a value without a format spec.
    Floats and containers are outside the modelled fragment. *)
Definition py_str (v : pyval) : result str :=
  match v with
  | PNone => Ok (lit "None")
  | PBool true => Ok (lit "True")
  | PBool false => Ok (lit "False")
  | PInt z => Ok (str_of_int z)
  | PStr s => Ok s
  | PFloat _ | PList _ | PDict _ => Raise Unmodelled
  end.

(** ** Regular expressions: the fragment of [re] the program uses

    A backtracking matcher in continuation-passing style, which is how
    [re] explores alternatives: a greedy operator tries the longer match
    first, a lazy one the shorter, and the first success wins. *)

Module Re.

Inductive regex : Type :=
| RLit (l : str)                  (* literal text *)
| RSet (p : char -> bool)         (* one character of a class *)
| RSeq (r1 r2 : regex)            (* concatenation *)
| ROpt (r : regex)                (* r?   greedy *)
| RStar (p : char -> bool)        (* c*   greedy, c a class *)
| RLazy (p : char -> bool)        (* c*?  lazy, c a class *)
| RGroup (i : nat) (r : regex)    (* capturing group number i *)
| REnd.                           (* $ without MULTILINE *)

Definition captures := list (nat * str).

(** [m.group(i)]: [None] when the group did not take part. *)
Fixpoint group (caps : captures) (i : nat) : option str :=
  match caps with
  | [] => None
  | (j, s) :: t => if Nat.eqb i j then Some s else group t i
  end.

Section Exec.
Variable A : Type.

Fixpoint star_greedy (p : char -> bool) (k : str -> option A) (s : str)
  : option A :=
  match s with
  | c :: t =>
      if p c then
        match star_greedy p k t with
        | Some a => Some a
        | None => k s
        end
      else k s
  | [] => k s
  end.

Fixpoint star_lazy (p : char -> bool) (k : str -> option A) (s : str)
  : option A :=
  match k s with
  | Some a => Some a
  | None =>
      match s with
      | c :: t => if p c then star_lazy p k t else None
      | [] => None
      end
  end.

Fixpoint exec (r : regex) (s : str) (caps : captures)
    (k : str -> captures -> option A) : option A :=
  match r with
  | RLit l => if startswith l s then k (skipn (List.length l) s) caps else None
  | RSet p =>
      match s with
      | c :: t => if p c then k t caps else None
      | [] => None
      end
  | RSeq r1 r2 => exec r1 s caps (fun s' caps' => exec r2 s' caps' k)
  | ROpt r1 =>
      match exec r1 s caps k with
      | Some a => Some a
      | None => k s caps
      end
  | RStar p => star_greedy p (fun s' => k s' caps) s
  | RLazy p => star_lazy p (fun s' => k s' caps) s
  | RGroup i r1 =>
      exec r1 s caps (fun s' caps' =>
        k s' ((i, firstn (List.length s - List.length s') s) :: caps'))
  | REnd =>
      match s with
      | [] => k s caps
      | [c] => if (c =? 10)%N then k s caps else None
      | _ => None
      end
  end.

End Exec.

(** One anchored attempt ([pattern.match] at the current position):
    the groups and the text left after the match. *)
Definition match_here (r : regex) (s : str) : option (captures * str) :=
  exec r s [] (fun s' caps => Some (caps, s')).

(** The scan shared by [sub] and [finditer]: attempts at successive
    positions; after a non-empty match the scan resumes where it ended,
    after an empty one a character further. *)
Fixpoint sub_from (fuel : nat) (r : regex) (repl s : str) : str :=
  match fuel with
  | O => s
  | S fuel' =>
      match match_here r s with
      | Some (_, rest) =>
          if Nat.ltb (List.length rest) (List.length s)
          then repl ++ sub_from fuel' r repl rest
          else match s with
               | [] => repl
               | c :: t => repl ++ c :: sub_from fuel' r repl t
               end
      | None =>
          match s with
          | [] => []
          | c :: t => c :: sub_from fuel' r repl t
          end
      end
  end.

(** [re.sub(r, repl, s)] for a replacement without group references. *)
Definition sub (r : regex) (repl s : str) : str :=
  sub_from (S (List.length s)) r repl s.

Fixpoint finditer_from (fuel : nat) (r : regex) (s : str) : list captures :=
  match fuel with
  | O => []
  | S fuel' =>
      match match_here r s with
      | Some (caps, rest) =>
          if Nat.ltb (List.length rest) (List.length s)
          then caps :: finditer_from fuel' r rest
          else match s with
               | [] => [caps]
               | _ :: t => caps :: finditer_from fuel' r t
               end
      | None =>
          match s with
          | [] => []
          | _ :: t => finditer_from fuel' r t
          end
      end
  end.

(** [r.finditer(s)], each match reduced to its groups. *)
Definition finditer (r : regex) (s : str) : list captures :=
  finditer_from (S (List.length s)) r s.

Definition any_char (c : char) : bool := true.

(** [\s+] *)
Definition spaces1 : regex := RSeq (RSet isspace) (RStar isspace).

Fixpoint sequence (rs : list regex) : regex :=
  match rs with
  | [] => RLit []
  | [r] => r
  | r :: rest => RSeq r (sequence rest)
  end.

End Re.
Import Re.

(** ** [str.format] with keyword arguments

    The fragment modelled: literal text, the escapes [{{] and [}}], and
    replacement fields [{name}] holding a plain keyword.  A field with a
    conversion, a format spec, an attribute or an index is reported as
    [Unmodelled]; an empty or numeric field raises [IndexError] because
    no positional argument is passed. *)

Definition is_digit (c : char) : bool := ((48 <=? c) && (c <=? 57))%N.

(** The characters [.], [[], [!] and [:], which start the parts of a
    field outside the modelled fragment. *)
Definition field_special (c : char) : bool :=
  ((c =? 46) || (c =? 91) || (c =? 33) || (c =? 58))%N.

Definition format_field (vars : list (str * pyval)) (name : str) : result str :=
  if existsb field_special name then Raise Unmodelled
  else if forallb is_digit name then Raise IndexError
  else match assoc vars name with
       | Some v => py_str v
       | None => Raise KeyError
       end.

(** [field = Some acc]: inside a replacement field, [acc] holding the
    name read so far, last character first. *)
Fixpoint format_go (vars : list (str * pyval)) (s : str) (field : option str)
  : result str :=
  match s, field with
  | [], None => Ok []
  | [], Some _ => Raise ValueError
  | c :: t, Some acc =>
      if (c =? 125)%N then
        v <- format_field vars (rev acc) ;;
        rest <- format_go vars t None ;;
        Ok (v ++ rest)
      else if (c =? 123)%N then Raise ValueError
      else format_go vars t (Some (c :: acc))
  | c :: t, None =>
      if (c =? 123)%N then
        match t with
        | c' :: t' =>
            if (c' =? 123)%N
            then rest <- format_go vars t' None ;; Ok (123%N :: rest)
            else format_go vars t (Some [])
        | [] => Raise ValueError
        end
      else if (c =? 125)%N then
        match t with
        | c' :: t' =>
            if (c' =? 125)%N
            then rest <- format_go vars t' None ;; Ok (125%N :: rest)
            else Raise ValueError
        | [] => Raise ValueError
        end
      else rest <- format_go vars t None ;; Ok (c :: rest)
  end.

(** [template.format] called with the keyword arguments [vars]. *)
Definition str_format (template : str) (vars : list (str * pyval)) : result str :=
  format_go vars template None.

(** ** Title templates: [ChapterTemplate] *)

(** Full-width parentheses U+FF08 and U+FF09. *)
Definition fw_open : char := 65288%N.
Definition fw_close : char := 65289%N.

Definition TEMPLATES : list (str * option str) :=
  [ (lit "default", Some (lit "{name} - {artists}"));
    (lit "with_trans",
       Some (lit "{name}" ++ fw_open :: lit "{trans_name}" ++ fw_close :: lit "- {artists}"));
    (lit "full", Some (lit "{name} - {artists} [{album}]"));
    (lit "simple", Some (lit "{name}"));
    (lit "artist_first", Some (lit "{artists} - {name}"));
    (lit "with_id", Some (lit "{name} - {artists} (ID: {id})"));
    (lit "detailed",
       Some (lit "{name}" ++ fw_open :: lit "{trans_name}" ++ fw_close
               :: lit "- {artists} | {album}"));
    (lit "japanese", Some (lit "{name} / {artists}"));
    (lit "minimal", Some (lit "{name} - {artist_first}"));
    (lit "custom", None) ].

Fixpoint lookup_template (table : list (str * option str)) (k : str)
  : option (option str) :=
  match table with
  | [] => None
  | (k', v) :: t => if str_eqb k' k then Some v else lookup_template t k
  end.

(** [ChapterTemplate(template)]: the value of [self.template]. *)
Definition ChapterTemplate_init (template : str) : result str :=
  match lookup_template TEMPLATES template with
  | Some (Some t) => Ok t
  | Some None => Raise ValueError
  | None => Ok template
  end.

Definition open_paren (c : char) : bool := ((c =? fw_open) || (c =? 40))%N.
Definition close_paren (c : char) : bool := ((c =? fw_close) || (c =? 41))%N.

(** The pattern removing the translated-name token with an optional
    parenthesis on either side. *)
Definition re_trans_name : regex :=
  sequence [ROpt (RSet open_paren); RLit (lit "{trans_name}"); ROpt (RSet close_paren)].

(** The pattern for an empty pair of parentheses with the blanks around
    and inside it. *)
Definition re_empty_parens : regex :=
  sequence [RStar isspace; RSet open_paren; RStar isspace; RSet close_paren;
       RStar isspace].

(** The pattern for a dash at the end of the string. *)
Definition re_trailing_dash : regex :=
  sequence [RStar isspace; RLit (lit "-"); RStar isspace; REnd].

(** The [artist_first] entry: the first comma-separated piece of
    [artists], stripped, when [artists] is truthy. *)
Definition artist_first (song_info : list (str * pyval)) : result pyval :=
  if truthy (dict_get song_info (lit "artists") (PStr []))
  then match dict_get song_info (lit "artists") (PStr []) with
       | PStr a =>
           first <- index (split 44%N a) 0 ;;
           Ok (PStr (strip first))
       | _ => Raise AttributeError
       end
  else Ok (PStr []).

Definition template_variables (song_info : list (str * pyval))
  : result (list (str * pyval)) :=
  af <- artist_first song_info ;;
  Ok [ (lit "name", dict_get song_info (lit "name") (PStr []));
       (lit "trans_name", dict_get song_info (lit "transName") (PStr []));
       (lit "artists", dict_get song_info (lit "artists") (PStr []));
       (lit "artist_first", af);
       (lit "album", dict_get song_info (lit "album") (PStr []));
       (lit "id", dict_get song_info (lit "id") (PStr []));
       (lit "popularity", dict_get song_info (lit "popularity") (PInt 0)) ].

(** The song record [recognize_song] returns, key by key. *)
Definition song_record (name artists album id transName popularity : pyval)
  : list (str * pyval) :=
  [ (lit "name", name);
    (lit "artists", artists);
    (lit "album", album);
    (lit "id", id);
    (lit "transName", transName);
    (lit "popularity", popularity) ].

(** [ChapterTemplate.format], [template] being [self.template].  The
    [except KeyError] fallback returns the song's name, which is a title
    only when it is a string. *)
Definition ChapterTemplate_format (template : str)
    (song_info : list (str * pyval)) : result str :=
  variables <- template_variables song_info ;;
  let template :=
    if contains (lit "{trans_name}") template
       && negb (truthy (dict_get variables (lit "trans_name") PNone))
    then strip (sub spaces1 (lit " ") (sub re_trans_name [] template))
    else template in
  match str_format template variables with
  | Ok result =>
      let result := sub re_empty_parens [] result in
      let result := strip (sub spaces1 (lit " ") result) in
      let result := sub re_trailing_dash [] result in
      Ok result
  | Raise KeyError =>
      match dict_get song_info (lit "name") (PStr (lit "Unknown")) with
      | PStr n => Ok n
      | _ => Raise Unmodelled
      end
  | Raise e => Raise e
  end.

(** ** Chapters and the chapter XML codec: [MKVChapter], [MKVChapterManager] *)

Record MKVChapter : Type := mkChapter {
  uid : str;
  start_time : str;
  end_time : option str;
  title : str
}.

(** The pattern of [_parse_chapter_xml], compiled with [re.DOTALL]:
    every [.*?] is a lazy run of arbitrary characters, and the
    [ChapterTimeEnd] part is a greedy optional non-capturing group. *)
Definition chapter_pattern : regex :=
  sequence [ RLit (lit "<ChapterAtom>"); RLazy any_char;
        RLit (lit "<ChapterUID>"); RGroup 1 (RLazy any_char);
        RLit (lit "</ChapterUID>"); RLazy any_char;
        RLit (lit "<ChapterTimeStart>"); RGroup 2 (RLazy any_char);
        RLit (lit "</ChapterTimeStart>"); RLazy any_char;
        ROpt (sequence [ RLit (lit "<ChapterTimeEnd>"); RGroup 3 (RLazy any_char);
                    RLit (lit "</ChapterTimeEnd>"); RLazy any_char ]);
        RLit (lit "<ChapterDisplay>"); RLazy any_char;
        RLit (lit "<ChapterString>"); RGroup 4 (RLazy any_char);
        RLit (lit "</ChapterString>") ].

(** The clean-up of a time string: when it has a dot and the piece after
    the first dot is longer than three characters, keep the piece before
    the dot and the first three characters after it. *)
Definition truncate_time (t : str) : str :=
  if existsb (N.eqb 46) t then
    let parts := split 46%N t in
    let p0 := nth 0 parts [] in
    let p1 := nth 1 parts [] in
    if Nat.ltb 3 (List.length p1) then p0 ++ lit "." ++ firstn 3 p1 else t
  else t.

(** A group that matched: the groups of [chapter_pattern] other than
    the third always take part in a match. *)
Definition group_text (caps : captures) (i : nat) : str :=
  match group caps i with
  | Some s => s
  | None => []
  end.

Definition chapter_of_match (caps : captures) : MKVChapter :=
  let uid := group_text caps 1 in
  let start_time := group_text caps 2 in
  let end_time :=
    match group caps 3 with
    | Some (c :: e) => Some (c :: e)
    | _ => None
    end in
  let title := group_text caps 4 in
  let start_time := truncate_time start_time in
  let end_time := option_map truncate_time end_time in
  mkChapter uid start_time end_time title.

Definition _parse_chapter_xml (xml_content : str) : list MKVChapter :=
  map chapter_of_match (finditer chapter_pattern xml_content).

(** The lines one chapter contributes to [xml_parts]. *)
Definition chapter_lines (chapter : MKVChapter) : list str :=
  [ lit "    <ChapterAtom>";
    lit "      <ChapterUID>" ++ uid chapter ++ lit "</ChapterUID>";
    lit "      <ChapterTimeStart>" ++ start_time chapter ++ lit "</ChapterTimeStart>" ]
  ++ match end_time chapter with
     | Some (c :: e) =>
         [ lit "      <ChapterTimeEnd>" ++ (c :: e) ++ lit "</ChapterTimeEnd>" ]
     | _ => []
     end
  ++ [ lit "      <ChapterDisplay>";
       lit "        <ChapterString>" ++ title chapter ++ lit "</ChapterString>";
       lit "        <ChapterLanguage>und</ChapterLanguage>";
       lit "      </ChapterDisplay>";
       lit "    </ChapterAtom>" ].

Definition xml_header : list str :=
  [ lit "<?xml version=" ++ 34%N :: lit "1.0" ++ 34%N :: lit " encoding="
      ++ 34%N :: lit "UTF-8" ++ 34%N :: lit "?>";
    lit "<!DOCTYPE Chapters SYSTEM " ++ 34%N :: lit "matroskachapters.dtd"
      ++ 34%N :: lit ">";
    lit "<Chapters>";
    lit "  <EditionEntry>" ].

Definition xml_footer : list str :=
  [ lit "  </EditionEntry>";
    lit "</Chapters>" ].

Definition _generate_chapter_xml (chapters : list MKVChapter) : str :=
  let xml_parts := xml_header ++ flat_map chapter_lines chapters ++ xml_footer in
  join [10%N] xml_parts.

(** ** The outside world

    Every external program is a field of [world]; the index [i] is the
    position of the chapter being processed, so the answers may differ
    from one chapter to the next. *)

Record world : Type := mkWorld {
  (** mkvextract: return code and the chapter document it writes. *)
  run_mkvextract : Z * str;
  (** ffmpeg, by chapter index, seek position and [-t] duration:
      return code and standard output. *)
  run_ffmpeg : nat -> Q -> Z -> Z * list Byte.byte;
  (** The fingerprint generator: a fingerprint string, or a raised
      error. *)
  GenerateFP : nat -> list N -> result str;
  (** The catalogue lookup: the decoded JSON answer, or a raised error. *)
  GetMatchTrackByFP : nat -> str -> Z -> result pyval;
  (** mkvpropedit: return code, by the target file and the chapter file's
      content. *)
  run_mkvpropedit : str -> Z
}.

Inductive event : Type :=
| EvMkvextract
| EvBackup (chapters : list MKVChapter)
| EvFfmpeg (i : nat) (start_time : Q) (duration : Z)
| EvGenerateFP (i : nat)
| EvGetMatch (i : nat)
| EvMkvpropedit (output_file : option str) (chapter_file : str).

(** Computations that log events and may raise. *)
Definition M (A : Type) : Type := list event -> list event * result A.

Definition ret {A} (a : A) : M A := fun log => (log, Ok a).
Definition raise {A} (e : exn) : M A := fun log => (log, Raise e).
Definition emit (e : event) : M unit := fun log => (log ++ [e], Ok tt).
Definition lift {A} (r : result A) : M A := fun log => (log, r).

Definition mbind {A B} (m : M A) (f : A -> M B) : M B :=
  fun log =>
    match m log with
    | (log', Ok a) => f a log'
    | (log', Raise e) => (log', Raise e)
    end.

Notation "x <~ m ;; k" := (mbind m (fun x => k))
  (at level 61, m at next level, right associativity).

(** ** Audio samples: [AFPInstance] constants and
    [AudioRecognizer.extract_audio_sample] *)

Definition DURATION : Z := 3.
Definition SAMPLERATE : Z := 8000.
Definition SAMPLECOUNT : Z := DURATION * SAMPLERATE.

(** One little-endian 32-bit float, kept as its bit pattern. *)
Definition f32le (b0 b1 b2 b3 : Byte.byte) : N :=
  (Byte.to_N b0 + 256 * (Byte.to_N b1 + 256 * (Byte.to_N b2 + 256 * Byte.to_N b3)))%N.

(** [struct.unpack] of a buffer of little-endian floats, four bytes a
    sample. *)
Fixpoint unpack_f32le (buffer : list Byte.byte) : list N :=
  match buffer with
  | b0 :: b1 :: b2 :: b3 :: rest => f32le b0 b1 b2 b3 :: unpack_f32le rest
  | _ => []
  end.

(** [extract_audio_sample]: [completed] is what [subprocess.run]
    returned for the ffmpeg command built from [start_time] and
    [duration]; a non-zero return code is the caught
    [CalledProcessError]. *)
Definition samples_of_output (completed : Z * list Byte.byte)
  : option (list N) :=
  let '(returncode, buffer) := completed in
  if (returncode =? 0)%Z then
    let expected_size := (SAMPLECOUNT * 4)%Z in
    if (Z.of_nat (List.length buffer) <? expected_size)%Z then None
    else Some (unpack_f32le (firstn (Z.to_nat expected_size) buffer))
  else None.

Definition extract_audio_sample (w : world) (i : nat) (start_time : Q)
    (duration : Z) : M (option (list N)) :=
  _ <~ emit (EvFfmpeg i start_time duration) ;;
  ret (samples_of_output (run_ffmpeg w i start_time duration)).

(** ** Recognition: [AFPInstance.generate_fingerprint] and
    [AudioRecognizer.recognize_song] *)

(** [v[k]] for a string key. *)
Definition getitem (v : pyval) (k : str) : result pyval :=
  match v with
  | PDict d =>
      match assoc d k with
      | Some x => Ok x
      | None => Raise KeyError
      end
  | _ => Raise TypeError
  end.

(** [v[0]] *)
Definition getitem0 (v : pyval) : result pyval :=
  match v with
  | PList (x :: _) => Ok x
  | PList [] => Raise IndexError
  | PStr (c :: _) => Ok (PStr [c])
  | PStr [] => Raise IndexError
  | PDict _ => Raise KeyError
  | _ => Raise TypeError
  end.

(** The items a [for] loop sees. *)
Definition iterate (v : pyval) : result (list pyval) :=
  match v with
  | PList l => Ok l
  | PStr s => Ok (map (fun c => PStr [c]) s)
  | PDict d => Ok (map (fun kv => PStr (fst kv)) d)
  | _ => Raise TypeError
  end.

(** [v == n] for an integer literal [n]. *)
Definition eq_int (v : pyval) (n : Z) : bool :=
  match v with
  | PInt z => (z =? n)%Z
  | PFloat q => Qeq_bool q (inject_Z n)
  | PBool b => ((if b then 1 else 0) =? n)%Z
  | _ => false
  end.

(** [v.get(k, default)]: only a [dict] has [get]. *)
Definition get (v : pyval) (k : str) (default : pyval) : result pyval :=
  match v with
  | PDict d => Ok (dict_get d k default)
  | _ => Raise AttributeError
  end.

Fixpoint artist_names (artists : list pyval) : result (list str) :=
  match artists with
  | [] => Ok []
  | a :: rest =>
      n <- getitem a (lit "name") ;;
      names <- artist_names rest ;;
      match n with
      | PStr s => Ok (s :: names)
      | _ => Raise TypeError
      end
  end.

(** The body of the [try] block of [recognize_song] once the answer
    [result] is in hand. *)
Definition song_of_response (result : pyval)
  : PyResult (option (list (str * pyval))) :=
  code <- getitem result (lit "code") ;;
  if eq_int code 200 then
    data <- getitem result (lit "data") ;;
    matches <- getitem data (lit "result") ;;
    if truthy matches then
      first <- getitem0 matches ;;
      song_info <- getitem first (lit "song") ;;
      name <- getitem song_info (lit "name") ;;
      artists <- getitem song_info (lit "artists") ;;
      items <- iterate artists ;;
      names <- artist_names items ;;
      album <- getitem song_info (lit "album") ;;
      album_name <- getitem album (lit "name") ;;
      id <- getitem song_info (lit "id") ;;
      transName <- get song_info (lit "transName") (PStr []) ;;
      popularity <- get song_info (lit "popularity") (PInt 0) ;;
      Ok (Some (song_record name (PStr (join (lit ", ") names)) album_name
                            id transName popularity))
    else Ok None
  else Ok None.

(** [generate_fingerprint]: the assertion on the sample count, then the
    external generator. *)
Definition generate_fingerprint (w : world) (i : nat) (sample : list N)
  : M str :=
  if (Z.of_nat (List.length sample) =? SAMPLECOUNT)%Z then
    _ <~ emit (EvGenerateFP i) ;;
    lift (GenerateFP w i sample)
  else raise AssertionError.

(** [recognize_song]: every exception ends as [None]. *)
Definition recognize_song (w : world) (i : nat) (samples : list N)
  : M (option (list (str * pyval))) :=
  fun log =>
    let attempt :=
      fp <~ generate_fingerprint w i samples ;;
      _ <~ emit (EvGetMatch i) ;;
      result <~ lift (GetMatchTrackByFP w i fp DURATION) ;;
      lift (song_of_response result) in
    match attempt log with
    | (log', Ok v) => (log', Ok v)
    | (log', Raise _) => (log', Ok None)
    end.

(** ** The per-file pipeline: [MKVAutoRename.process] *)

(** [extract_chapters]: run mkvextract, then decode its document. *)
Definition extract_chapters (w : world) : M (list MKVChapter) :=
  _ <~ emit EvMkvextract ;;
  let '(returncode, xml_content) := run_mkvextract w in
  if negb (returncode =? 0)%Z then raise RuntimeError
  else ret (_parse_chapter_xml xml_content).

(** [update_chapters]: encode, then run mkvpropedit on the document. *)
Definition update_chapters (w : world) (chapters : list MKVChapter)
    (output_file : option str) : M unit :=
  let xml_content := _generate_chapter_xml chapters in
  _ <~ emit (EvMkvpropedit output_file xml_content) ;;
  if negb (run_mkvpropedit w xml_content =? 0)%Z then raise RuntimeError
  else ret tt.

(** [_backup_chapters]: the sidecar receives the chapters as they are
    at that moment. *)
Definition _backup_chapters (chapters : list MKVChapter) : M unit :=
  emit (EvBackup chapters).

Definition set_title (chapter : MKVChapter) (new_title : str) : MKVChapter :=
  mkChapter (uid chapter) (start_time chapter) (end_time chapter) new_title.

(** The seek position of a chapter: both time strings are parsed, the
    end only when it is a non-empty string. *)
Definition chapter_sample_start (cfg : RecognitionConfig) (chapter : MKVChapter)
  : result Q :=
  start_seconds <- parse_time_to_seconds (start_time chapter) ;;
  end_seconds <-
    match end_time chapter with
    | Some (c :: e) => t <- parse_time_to_seconds (c :: e) ;; Ok (Some t)
    | _ => Ok None
    end ;;
  Ok (calculate_sample_time cfg start_seconds end_seconds).

(** One turn of the [for] loop: the chapter as it is left, and whether
    [updated_count] was incremented.  [extract_audio_sample] is called
    with its default duration. *)
Definition process_chapter (w : world) (cfg : RecognitionConfig)
    (template : str) (i : nat) (chapter : MKVChapter)
  : M (MKVChapter * bool) :=
  sample_start <~ lift (chapter_sample_start cfg chapter) ;;
  samples <~ extract_audio_sample w i sample_start 3 ;;
  match samples with
  | None => ret (chapter, false)
  | Some samples =>
      song_info <~ recognize_song w i samples ;;
      match song_info with
      | Some (kv :: rest) =>
          new_title <~ lift (ChapterTemplate_format template (kv :: rest)) ;;
          ret (set_title chapter new_title, true)
      | _ => ret (chapter, false)
      end
  end.

(** The [for] loop: the chapters as mutated and [updated_count]. *)
Fixpoint process_chapters (w : world) (cfg : RecognitionConfig)
    (template : str) (i : nat) (chapters : list MKVChapter)
  : M (list MKVChapter * Z) :=
  match chapters with
  | [] => ret ([], 0%Z)
  | chapter :: rest =>
      r <~ process_chapter w cfg template i chapter ;;
      rs <~ process_chapters w cfg template (S i) rest ;;
      ret (fst r :: fst rs, ((if snd r then 1 else 0) + snd rs)%Z)
  end.

(** The part of [process] that follows chapter extraction. *)
Definition process_extracted (w : world) (cfg : RecognitionConfig)
    (template : str) (output_file : option str) (backup : bool)
    (chapters : list MKVChapter) : M (list MKVChapter) :=
  match chapters with
  | [] => ret []
  | _ =>
      _ <~ (if backup then _backup_chapters chapters else ret tt) ;;
      r <~ process_chapters w cfg template 0 chapters ;;
      let '(chapters, updated_count) := r in
      if (0 <? updated_count)%Z
      then _ <~ update_chapters w chapters output_file ;; ret chapters
      else ret chapters
  end.

(** [process]: the log of external calls, and either the chapter list
    held at the end of the run or the exception that ended it. *)
Definition process (w : world) (cfg : RecognitionConfig) (template : str)
    (output_file : option str) (backup : bool)
  : list event * result (list MKVChapter) :=
  (chapters <~ extract_chapters w ;;
   process_extracted w cfg template output_file backup chapters) [].

(** The recognition outcome of chapter [i], without the log: the song
    record [process_chapter] obtains, if any. *)
Definition recognition_of (w : world) (cfg : RecognitionConfig) (i : nat)
    (chapter : MKVChapter) : option (list (str * pyval)) :=
  match chapter_sample_start cfg chapter with
  | Ok sample_start =>
      match samples_of_output (run_ffmpeg w i sample_start 3) with
      | Some samples =>
          match snd (recognize_song w i samples []) with
          | Ok (Some (kv :: rest)) => Some (kv :: rest)
          | _ => None
          end
      | None => None
      end
  | Raise _ => None
  end.

(** Whether the log holds a call of the metadata-write tool. *)
Definition is_write (e : event) : bool :=
  match e with
  | EvMkvpropedit _ _ => true
  | _ => false
  end.

Definition write_invoked (log : list event) : bool := existsb is_write log.

(** ** Configuration: the command line, [argparse] defaults and
    [merge_config_with_args] *)

(** What the user typed: [None] for an option left out, [false] for a
    flag left out. *)
Record CommandLine : Type := mkCommandLine {
  cl_mkv_file : option str;
  cl_output : option str;
  cl_strategy : option str;
  cl_offset : option Q;
  cl_percentage : option Q;
  cl_duration : option Z;
  cl_template : option str;
  cl_ffmpeg : option str;
  cl_mkvextract : option str;
  cl_mkvpropedit : option str;
  cl_no_backup : bool;
  cl_skip_check : bool
}.

(** The namespace [parser.parse_args()] returns, restricted to the
    attributes [merge_config_with_args] reads. *)
Record Namespace : Type := mkNamespace {
  arg_mkv_file : option str;
  arg_output : option str;
  arg_strategy : str;
  arg_offset : Q;
  arg_percentage : Q;
  arg_duration : Z;
  arg_template : str;
  arg_ffmpeg : option str;
  arg_mkvextract : option str;
  arg_mkvpropedit : option str;
  arg_no_backup : bool;
  arg_skip_check : bool
}.

Definition or_default {A} (o : option A) (d : A) : A :=
  match o with
  | Some a => a
  | None => d
  end.

(** [parse_args] with the defaults declared in [main]. *)
Definition parse_args (cl : CommandLine) : Namespace :=
  mkNamespace (cl_mkv_file cl) (cl_output cl)
    (or_default (cl_strategy cl) (lit "start"))
    (or_default (cl_offset cl) 5)
    (or_default (cl_percentage cl) (1 # 2))
    (or_default (cl_duration cl) 3%Z)
    (or_default (cl_template cl) (lit "default"))
    (cl_ffmpeg cl) (cl_mkvextract cl) (cl_mkvpropedit cl)
    (cl_no_backup cl) (cl_skip_check cl).

Definition of_opt_str (o : option str) : pyval :=
  match o with
  | Some s => PStr s
  | None => PNone
  end.

(** [a or b], the second operand evaluated only when needed. *)
Definition py_or (a : pyval) (b : result pyval) : result pyval :=
  if truthy a then Ok a else b.

(** [a if cond else b], likewise. *)
Definition py_if (cond : bool) (a : pyval) (b : result pyval) : result pyval :=
  if cond then Ok a else b.

(** [config.get(section, {}).get(key, default)] *)
Definition get2 (config : pyval) (section key : str) (default : pyval)
  : result pyval :=
  s <- get config section (PDict []) ;;
  get s key default.

Definition merge_config_with_args (config : pyval) (args : Namespace)
  : result pyval :=
  mkv_file <- py_or (of_opt_str (arg_mkv_file args))
                    (get config (lit "mkv_file") PNone) ;;
  output <- py_or (of_opt_str (arg_output args))
                  (get config (lit "output") PNone) ;;
  template <- py_if (negb (str_eqb (arg_template args) (lit "default")))
                    (PStr (arg_template args))
                    (get config (lit "template") (PStr (lit "default"))) ;;
  custom_template <- get config (lit "custom_template") PNone ;;
  strategy <- py_if (negb (str_eqb (arg_strategy args) (lit "start")))
                    (PStr (arg_strategy args))
                    (get2 config (lit "recognition") (lit "strategy")
                          (PStr (lit "start"))) ;;
  offset <- py_if (negb (Qeq_bool (arg_offset args) 5))
                  (PFloat (arg_offset args))
                  (get2 config (lit "recognition") (lit "offset") (PFloat 5)) ;;
  percentage <- py_if (negb (Qeq_bool (arg_percentage args) (1 # 2)))
                      (PFloat (arg_percentage args))
                      (get2 config (lit "recognition") (lit "percentage")
                            (PFloat (1 # 2))) ;;
  duration <- py_if (negb (arg_duration args =? 3)%Z)
                    (PInt (arg_duration args))
                    (get2 config (lit "recognition") (lit "duration") (PInt 3)) ;;
  ffmpeg <- py_or (of_opt_str (arg_ffmpeg args))
                  (get2 config (lit "tools") (lit "ffmpeg") PNone) ;;
  mkvextract <- py_or (of_opt_str (arg_mkvextract args))
                      (get2 config (lit "tools") (lit "mkvextract") PNone) ;;
  mkvpropedit <- py_or (of_opt_str (arg_mkvpropedit args))
                       (get2 config (lit "tools") (lit "mkvpropedit") PNone) ;;
  no_backup <- py_or (PBool (arg_no_backup args))
                     (get2 config (lit "options") (lit "no_backup") (PBool false)) ;;
  skip_check <- py_or (PBool (arg_skip_check args))
                      (get2 config (lit "options") (lit "skip_check") (PBool false)) ;;
  Ok (PDict
        [ (lit "mkv_file", mkv_file);
          (lit "output", output);
          (lit "template", template);
          (lit "custom_template", custom_template);
          (lit "recognition",
             PDict [ (lit "strategy", strategy);
                     (lit "offset", offset);
                     (lit "percentage", percentage);
                     (lit "duration", duration) ]);
          (lit "tools",
             PDict [ (lit "ffmpeg", ffmpeg);
                     (lit "mkvextract", mkvextract);
                     (lit "mkvpropedit", mkvpropedit) ]);
          (lit "options",
             PDict [ (lit "no_backup", no_backup);
                     (lit "skip_check", skip_check) ]) ]).

(** [merged[section][key]] *)
Definition merged_setting (merged : result pyval) (section key : str)
  : result pyval :=
  m <- merged ;;
  s <- getitem m section ;;
  getitem s key.

(** ** Restore: [MKVAutoRename.restore_from_backup] *)

(** What the restore finds at the sidecar path: no file, a file that
    [json.load] rejects, or the decoded value. *)
Inductive backup_file : Type :=
| BackupAbsent
| BackupNotJson
| BackupJson (chapters_data : pyval).

(** The keyword arguments of one [MKVChapter(...)] call of the restore
    loop, whatever their types. *)
Record restored_chapter : Type := mkRestored {
  r_uid : pyval;
  r_start_time : pyval;
  r_end_time : pyval;
  r_title : pyval
}.

Definition restored_of (data : pyval) : result restored_chapter :=
  uid <- getitem data (lit "uid") ;;
  start_time <- getitem data (lit "start_time") ;;
  end_time <- get data (lit "end_time") PNone ;;
  title <- getitem data (lit "title") ;;
  Ok (mkRestored uid start_time end_time title).

Fixpoint restored_list (items : list pyval) : result (list restored_chapter) :=
  match items with
  | [] => Ok []
  | data :: rest =>
      chapter <- restored_of data ;;
      chapters <- restored_list rest ;;
      Ok (chapter :: chapters)
  end.

(** The two lines written for chapter number [i] of the simple chapter
    file. *)
Definition simple_chapter_lines (i : nat) (chapter : restored_chapter)
  : result str :=
  let chapter_id := fmt_0d 2 (Z.of_nat i) in
  st <- py_str (r_start_time chapter) ;;
  ti <- py_str (r_title chapter) ;;
  Ok (lit "CHAPTER" ++ chapter_id ++ lit "=" ++ st ++ [10%N]
      ++ lit "CHAPTER" ++ chapter_id ++ lit "NAME=" ++ ti ++ [10%N]).

Fixpoint simple_chapter_file (i : nat) (chapters : list restored_chapter)
  : result str :=
  match chapters with
  | [] => Ok []
  | chapter :: rest =>
      l <- simple_chapter_lines i chapter ;;
      ls <- simple_chapter_file (S i) rest ;;
      Ok (l ++ ls)
  end.

Definition restore_from_backup (w : world) (backup : backup_file)
  : list event * result unit :=
  (match backup with
   | BackupAbsent => raise FileNotFoundError
   | BackupNotJson => raise ValueError
   | BackupJson chapters_data =>
       if negb (truthy chapters_data) then raise ValueError
       else
         items <~ lift (iterate chapters_data) ;;
         chapters <~ lift (restored_list items) ;;
         text <~ lift (simple_chapter_file 0 chapters) ;;
         _ <~ emit (EvMkvpropedit None text) ;;
         if negb (run_mkvpropedit w text =? 0)%Z then raise RuntimeError
         else ret tt
   end) [].


(** ** Example environments *)

(** The [with_trans] preset. *)
Definition with_trans_template : str :=
  lit "{name}" ++ fw_open :: lit "{trans_name}" ++ fw_close :: lit "- {artists}".

(** [n] bytes of digital silence. *)
Definition silence (n : Z) : list Byte.byte := repeat Byte.x00 (Z.to_nat n).

(** A catalogue answer with one match. *)
Definition match_response (name artist album : str) : pyval :=
  PDict
    [ (lit "code", PInt 200);
      (lit "data",
         PDict
           [ (lit "result",
                PList
                  [ PDict
                      [ (lit "song",
                           PDict
                             [ (lit "name", PStr name);
                               (lit "artists",
                                  PList [ PDict [ (lit "name", PStr artist) ] ]);
                               (lit "album", PDict [ (lit "name", PStr album) ]);
                               (lit "id", PInt 1) ]) ] ]) ]) ].

(** A catalogue answer without a match. *)
Definition no_match_response : pyval :=
  PDict [ (lit "code", PInt 200);
          (lit "data", PDict [ (lit "result", PList []) ]) ].

(** A world holding the chapter document [xml], where ffmpeg returns
    exactly the [-t] seconds asked for, except at the chapter indexes
    listed in [short], where it returns one second; the catalogue answers
    [response]. *)
Definition example_world (xml : str) (short : list nat) (response : pyval)
  : world :=
  mkWorld (0%Z, xml)
    (fun i _ d =>
       (0%Z, if existsb (Nat.eqb i) short
             then silence (SAMPLERATE * 4)
             else silence (SAMPLERATE * d * 4)))
    (fun _ _ => Ok (lit "fp"))
    (fun _ _ _ => Ok response)
    (fun _ => 0%Z).

Definition chapter_at (n : Z) (t : str) : MKVChapter :=
  mkChapter (str_of_int n)
            (format_seconds_to_time (inject_Z (n * 200)))
            None t.

Definition five_chapters : list MKVChapter :=
  [ chapter_at 0 (lit "Chapter 1"); chapter_at 1 (lit "Chapter 2");
    chapter_at 2 (lit "Chapter 3"); chapter_at 3 (lit "Chapter 4");
    chapter_at 4 (lit "Chapter 5") ].

(** The command line [--strategy start] and a configuration file
    asking for [middle]. *)
Definition cl_strategy_start : CommandLine :=
  mkCommandLine (Some (lit "video.mkv")) None (Some (lit "start")) None None
                None None None None None false false.

Definition config_strategy_middle : pyval :=
  PDict [ (lit "recognition", PDict [ (lit "strategy", PStr (lit "middle")) ]) ].

(** One chapter whose title is already what recognition will render. *)
Definition recognised_chapter : MKVChapter :=
  mkChapter (lit "1") (lit "00:00:00.000") None (lit "X - A").

Definition default_template : str := lit "{name} - {artists}".

Definition recognised_world : world :=
  example_world (_generate_chapter_xml [recognised_chapter]) []
                (match_response (lit "X") (lit "A") (lit "Al")).

(** Five chapters, the third of which gets a short buffer. *)
Definition five_world : world :=
  example_world (_generate_chapter_xml five_chapters) [2%nat]
                (match_response (lit "X") (lit "A") (lit "Al")).

(** ** Auxiliary definitions used to state and prove the properties *)



(** A computation that only appends to the log, and whose result does
    not depend on what the log held. *)
Definition appends {A} (m : M A) : Prop :=
  forall log, m log = (log ++ fst (m []), snd (m [])).

(** The result of one turn of the loop, in terms of the recognition
    outcome. *)
Definition chapter_step (w : world) (cfg : RecognitionConfig) (template : str)
    (i : nat) (chapter : MKVChapter) : result (MKVChapter * bool) :=
  _ <- chapter_sample_start cfg chapter ;;
  match recognition_of w cfg i chapter with
  | Some song_info =>
      new_title <- ChapterTemplate_format template song_info ;;
      Ok (set_title chapter new_title, true)
  | None => Ok (chapter, false)
  end.


Create HintDb appends.

(** The loop of [process] without its log. *)
Fixpoint chapter_steps (w : world) (cfg : RecognitionConfig) (template : str)
    (i : nat) (chapters : list MKVChapter) : result (list MKVChapter * Z) :=
  match chapters with
  | [] => Ok ([], 0%Z)
  | chapter :: rest =>
      r <- chapter_step w cfg template i chapter ;;
      rs <- chapter_steps w cfg template (S i) rest ;;
      Ok (fst r :: fst rs, ((if snd r then 1 else 0) + snd rs)%Z)
  end.

(** Chapter [k] of [chapters] is recognised. *)
Definition recognised (w : world) (cfg : RecognitionConfig)
    (chapters : list MKVChapter) (k : nat) : Prop :=
  exists c, nth_error chapters k = Some c /\ recognition_of w cfg k c <> None.

(** *** Shapes used in the codec round trip *)

(** [mismatch l b]: [l] and [b] differ at a position both have, so that
    no text beginning with [b] begins with [l]. *)
Fixpoint mismatch (l b : str) : bool :=
  match l, b with
  | x :: l', y :: b' => negb (N.eqb x y) || mismatch l' b'
  | _, _ => false
  end.

(** [mismatch] at every non-empty suffix of [pre]. *)
Fixpoint mismatch_all (l pre : str) : bool :=
  match pre with
  | [] => true
  | _ :: t => mismatch l pre && mismatch_all l t
  end.

(** No non-empty suffix of [pre], followed by [tail], begins with [l]. *)
Definition early_free (l pre tail : str) : Prop :=
  forall a b, pre = a ++ b -> b <> [] -> startswith l (b ++ tail) = false.

(** The piece after the first dot, if any, has at most three
    characters: the time string is already cut to milliseconds. *)
Definition ms_truncated (t : str) : bool :=
  negb (existsb (N.eqb 46) t)
  || Nat.leb (List.length (nth 1 (split 46%N t) [])) 3.

(** A chapter the codec carries faithfully: no field holds the closing
    tag of its own element, both times are cut to milliseconds, and an
    end time, when present, is not the empty string. *)
Definition valid_chapter (c : MKVChapter) : bool :=
  negb (contains (lit "</ChapterUID>") (uid c))
  && negb (contains (lit "</ChapterTimeStart>") (start_time c))
  && ms_truncated (start_time c)
  && match end_time c with
     | None => true
     | Some [] => false
     | Some e => negb (contains (lit "</ChapterTimeEnd>") e) && ms_truncated e
     end
  && negb (contains (lit "</ChapterString>") (title c)).

(** Newline and indentation between the elements of one chapter. *)
Definition W6 : str := 10%N :: lit "      ".
Definition W8 : str := 10%N :: lit "        ".

(** The text of one chapter from its [<ChapterAtom>] tag to its
    [</ChapterString>] tag, followed by [rest]. *)
Definition atom_text (c : MKVChapter) (rest : str) : str :=
  lit "<ChapterAtom>" ++ W6 ++ lit "<ChapterUID>" ++ uid c
  ++ lit "</ChapterUID>" ++ W6 ++ lit "<ChapterTimeStart>" ++ start_time c
  ++ lit "</ChapterTimeStart>" ++ W6
  ++ match end_time c with
     | Some (x :: e) =>
         lit "<ChapterTimeEnd>" ++ (x :: e) ++ lit "</ChapterTimeEnd>" ++ W6
           ++ lit "<ChapterDisplay>" ++ W8 ++ lit "<ChapterString>" ++ title c
           ++ lit "</ChapterString>" ++ rest
     | _ =>
         lit "<ChapterDisplay>" ++ W8 ++ lit "<ChapterString>" ++ title c
           ++ lit "</ChapterString>" ++ rest
     end.

(** What follows [</ChapterString>] in one chapter, up to the newline
    that ends its last line. *)
Definition atom_tail : str :=
  10%N :: lit "        <ChapterLanguage>und</ChapterLanguage>"
  ++ 10%N :: lit "      </ChapterDisplay>"
  ++ 10%N :: lit "    </ChapterAtom>" ++ [10%N].

(** The document after its header lines. *)
Fixpoint xml_body (cs : list MKVChapter) : str :=
  match cs with
  | [] => join [10%N] xml_footer
  | c :: cs' => lit "    " ++ atom_text c (atom_tail ++ xml_body cs')
  end.

(** The header lines, each with its newline. *)
Definition xml_head : str := flat_map (fun p => p ++ [10%N]) xml_header.

(** The groups of the match of one chapter, last group first. *)
Definition atom_groups (c : MKVChapter) : captures :=
  (4%nat, title c)
  :: match end_time c with
     | Some (x :: e) => [(3%nat, x :: e)]
     | _ => []
     end
  ++ [(2%nat, start_time c); (1%nat, uid c)].

(** ** Further definitions used by the additional properties *)

(** Two chapters that differ at most in their titles. *)
Definition same_marks (a b : MKVChapter) : Prop :=
  uid a = uid b /\ start_time a = start_time b /\ end_time a = end_time b.

(** The events of the recognition loop: audio extraction, fingerprint
    generation and catalogue lookup. *)
Definition is_probe (e : event) : bool :=
  match e with
  | EvFfmpeg _ _ _ | EvGenerateFP _ | EvGetMatch _ => true
  | _ => false
  end.

(** What a run logs before the loop starts. *)
Definition preamble (backup : bool) (chapters : list MKVChapter) : list event :=
  EvMkvextract :: (if backup then [EvBackup chapters] else []).

Definition is_backup (e : event) : bool :=
  match e with
  | EvBackup _ => true
  | _ => false
  end.

(** ** The recognition subprocess: [recognition_worker.main]

    What the worker prints is a JSON object: either [success] with the
    song, or a failure with an error text. *)
Inductive worker_error : Type :=
| ErrorText (message : str)
| ErrorOf (e : exn).           (* [str(e)] of a caught exception *)

Inductive worker_report : Type :=
| Success (data : list (str * pyval))
| Failure (error : worker_error).

(** [AFPInstance()]: the fingerprint script must exist. *)
Definition AFPInstance_init (afp_js_exists : bool) : result unit :=
  if afp_js_exists then Ok tt else Raise FileNotFoundError.

(** The [try] block of the worker and its [except Exception]; [start]
    and [duration] are the parsed [--start] and [--duration]. *)
Definition worker_main (afp_js_exists : bool) (w : world) (i : nat)
    (start : Q) (duration : Z) : list event * worker_report :=
  let attempt :=
    _ <~ lift (AFPInstance_init afp_js_exists) ;;
    samples <~ extract_audio_sample w i start duration ;;
    match samples with
    | Some (x :: l) =>
        info <~ recognize_song w i (x :: l) ;;
        match info with
        | Some (kv :: rest) => ret (Success (kv :: rest))
        | _ => ret (Failure (ErrorText (lit "No match found")))
        end
    | _ => ret (Failure (ErrorText (lit "Failed to extract audio samples")))
    end in
  match attempt [] with
  | (log, Ok report) => (log, report)
  | (log, Raise e) => (log, Failure (ErrorOf e))
  end.

(** ** Batch mode: [BatchProcessor]

    Python binds the keyword arguments of a call to the parameters of
    the function before its body runs: a keyword that names no
    parameter raises [TypeError] (the functions here take no
    double-star parameter). *)
Definition bind_keywords (parameters keywords : list str) : result unit :=
  if forallb (fun k => existsb (str_eqb k) parameters) keywords
  then Ok tt else Raise TypeError.

(** The parameters of [MKVAutoRename.__init__] after [self]. *)
Definition MKVAutoRename_parameters : list str :=
  [ lit "mkv_file"; lit "recognition_config"; lit "template";
    lit "ffmpeg_path"; lit "mkvextract_path"; lit "mkvpropedit_path" ].

(** One [*.mkv] file of the directory: whether its backup sidecar
    exists, whether the objects [MKVAutoRename.__init__] builds can be
    built (file present, tools verified, fingerprint script present),
    and the tools' answers for it. *)
Record mkv_entry : Type := mkEntry {
  backup_exists : bool;
  construct : result unit;
  tools : world
}.

Definition should_process (skip_existing : bool) (mkv_file : mkv_entry) : bool :=
  if skip_existing
  then if backup_exists mkv_file then false else true
  else true.

(** [process_single_file]: the constructor is called with the keywords
    [sample_offset], [ffmpeg_path], [mkvextract_path] and
    [mkvpropedit_path]; then [process(backup=True)] with the default
    configuration and template; every exception becomes [False]. *)
Definition process_single_file (mkv_file : mkv_entry) : M bool :=
  fun log =>
    let attempt :=
      _ <~ lift (bind_keywords MKVAutoRename_parameters
                   [ lit "sample_offset"; lit "ffmpeg_path";
                     lit "mkvextract_path"; lit "mkvpropedit_path" ]) ;;
      _ <~ lift (construct mkv_file) ;;
      template <~ lift (ChapterTemplate_init (lit "default")) ;;
      chapters <~ extract_chapters (tools mkv_file) ;;
      _ <~ process_extracted (tools mkv_file) default_config template None true
                             chapters ;;
      ret true in
    match attempt log with
    | (log', Ok b) => (log', Ok b)
    | (log', Raise _) => (log', Ok false)
    end.

Record Stats : Type := mkStats {
  total : Z;
  success : Z;
  failed : Z;
  skipped : Z
}.

(** The serial loop of [process_directory]. *)
Fixpoint process_files (files_to_process : list mkv_entry) (stats : Stats)
  : M Stats :=
  match files_to_process with
  | [] => ret stats
  | mkv_file :: rest =>
      ok <~ process_single_file mkv_file ;;
      process_files rest
        (if ok
         then mkStats (total stats) (success stats + 1) (failed stats)
                      (skipped stats)
         else mkStats (total stats) (success stats) (failed stats + 1)
                      (skipped stats))
  end.

(** [process_directory] with [max_workers = 1], the default; [mkv_files]
    is what [find_mkv_files] returned, [stats] the counters so far. *)
Definition process_directory (skip_existing : bool)
    (mkv_files : list mkv_entry) (stats : Stats) : M Stats :=
  match mkv_files with
  | [] => ret stats
  | _ =>
      let files_to_process := filter (should_process skip_existing) mkv_files in
      let stats :=
        mkStats (Z.of_nat (List.length mkv_files)) (success stats)
                (failed stats)
                (Z.of_nat (List.length mkv_files)
                 - Z.of_nat (List.length files_to_process)) in
      match files_to_process with
      | [] => ret stats
      | _ => process_files files_to_process stats
      end
  end.

(** ** Configuration files: [load_config_file], [create_default_config]
    and the template [main] selects *)

(** What is found at the path given with [--config]. *)
Inductive config_file : Type :=
| ConfigAbsent
| ConfigNotJson
| ConfigJson (v : pyval).

(** [load_config_file]: a missing file and a file that is not JSON both
    give the empty dictionary. *)
Definition load_config_file (f : config_file) : pyval :=
  match f with
  | ConfigJson v => v
  | ConfigAbsent | ConfigNotJson => PDict []
  end.

(** The texts of the [_comments] entry of the default configuration,
    as code points. *)
Definition default_comments : list (str * pyval) :=
  [ (lit "mkv_file", PStr [77; 75; 86; 35270; 39057; 25991; 20214; 36335; 24452; 65288; 20063; 21487; 36890; 36807; 21629; 20196; 34892; 25351; 23450; 65289]);
    (lit "output", PStr [36755; 20986; 25991; 20214; 36335; 24452; 65292; 110; 117; 108; 108; 34920; 31034; 35206; 30422; 21407; 25991; 20214]);
    (lit "template", PStr [39044; 35774; 27169; 26495; 58; 32; 100; 101; 102; 97; 117; 108; 116; 44; 32; 119; 105; 116; 104; 95; 116; 114; 97; 110; 115; 44; 32; 102; 117; 108; 108; 44; 32; 115; 105; 109; 112; 108; 101; 44; 32; 97; 114; 116; 105; 115; 116; 95; 102; 105; 114; 115; 116; 44; 32; 119; 105; 116; 104; 95; 105; 100; 44; 32; 100; 101; 116; 97; 105; 108; 101; 100; 44; 32; 106; 97; 112; 97; 110; 101; 115; 101; 44; 32; 109; 105; 110; 105; 109; 97; 108]);
    (lit "custom_template", PStr [33258; 23450; 20041; 27169; 26495; 23383; 31526; 20018; 65292; 22914; 32; 39; 123; 110; 97; 109; 101; 125; 32; 98; 121; 32; 123; 97; 114; 116; 105; 115; 116; 115; 125; 39; 65292; 35774; 32622; 21518; 116; 101; 109; 112; 108; 97; 116; 101; 21442; 25968; 26080; 25928]);
    (lit "recognition.strategy", PStr [37319; 26679; 31574; 30053; 58; 32; 115; 116; 97; 114; 116; 40; 24320; 22987; 41; 44; 32; 109; 105; 100; 100; 108; 101; 40; 20013; 38388; 41; 44; 32; 101; 110; 100; 40; 32467; 23614; 41; 44; 32; 99; 117; 115; 116; 111; 109; 40; 33258; 23450; 20041; 30334; 20998; 27604; 41]);
    (lit "recognition.offset", PStr [83; 84; 65; 82; 84; 31574; 30053; 30340; 24310; 36831; 31186; 25968]);
    (lit "recognition.percentage", PStr [67; 85; 83; 84; 79; 77; 31574; 30053; 30340; 20301; 32622; 30334; 20998; 27604; 40; 48; 46; 48; 45; 49; 46; 48; 41]);
    (lit "recognition.duration", PStr [37319; 26679; 26102; 38271; 65288; 31186; 65289; 65292; 24314; 35758; 51; 45; 53; 31186]);
    (lit "tools", PStr [24037; 20855; 36335; 24452; 65292; 110; 117; 108; 108; 34920; 31034; 33258; 21160; 26816; 27979]);
    (lit "options.no_backup", PStr [26159; 21542; 31105; 29992; 33258; 21160; 22791; 20221]);
    (lit "options.skip_check", PStr [26159; 21542; 36339; 36807; 24037; 20855; 26816; 26597]) ]%N.

(** The dictionary [create_default_config] writes; JSON keeps it as it
    is, so this is also what [load_config_file] reads back. *)
Definition default_config_dict : pyval :=
  PDict
    [ (lit "mkv_file", PNone);
      (lit "output", PNone);
      (lit "template", PStr (lit "default"));
      (lit "custom_template", PNone);
      (lit "recognition",
         PDict [ (lit "strategy", PStr (lit "start"));
                 (lit "offset", PFloat 5);
                 (lit "percentage", PFloat (1 # 2));
                 (lit "duration", PInt 3) ]);
      (lit "tools",
         PDict [ (lit "ffmpeg", PNone);
                 (lit "mkvextract", PNone);
                 (lit "mkvpropedit", PNone) ]);
      (lit "options",
         PDict [ (lit "no_backup", PBool false);
                 (lit "skip_check", PBool false) ]);
      (lit "_comments", PDict default_comments) ].

(** [ChapterTemplate(template)] for a value of any JSON type: the
    membership test on [TEMPLATES] needs a hashable value, and a value
    that is no key is kept as it is. *)
Definition ChapterTemplate_new (template : pyval) : result pyval :=
  match template with
  | PStr s => t <- ChapterTemplate_init s ;; Ok (PStr t)
  | PList _ | PDict _ => Raise TypeError
  | v => Ok v
  end.

(** The template [main] builds from the merged configuration: the value
    of [template.template]. *)
Definition select_template (merged_config : pyval) : result pyval :=
  custom_template <- getitem merged_config (lit "custom_template") ;;
  if truthy custom_template then
    _ <- ChapterTemplate_new (PStr (lit "default")) ;;
    Ok custom_template
  else
    template <- getitem merged_config (lit "template") ;;
    ChapterTemplate_new template.

(** An optional command-line string as [x or None] leaves it: the
    empty string counts as left out. *)
Definition given (o : option str) : pyval :=
  match o with
  | Some (c :: s) => PStr (c :: s)
  | _ => PNone
  end.

(** The dictionary [merge_config_with_args] builds, field by field. *)
Definition merged_dict (mkv_file output template custom_template strategy
    offset percentage duration ffmpeg mkvextract mkvpropedit no_backup
    skip_check : pyval) : pyval :=
  PDict
    [ (lit "mkv_file", mkv_file);
      (lit "output", output);
      (lit "template", template);
      (lit "custom_template", custom_template);
      (lit "recognition",
         PDict [ (lit "strategy", strategy);
                 (lit "offset", offset);
                 (lit "percentage", percentage);
                 (lit "duration", duration) ]);
      (lit "tools",
         PDict [ (lit "ffmpeg", ffmpeg);
                 (lit "mkvextract", mkvextract);
                 (lit "mkvpropedit", mkvpropedit) ]);
      (lit "options",
         PDict [ (lit "no_backup", no_backup);
                 (lit "skip_check", skip_check) ]) ].

(** ** The sidecar of [_backup_chapters] *)

(** The dictionary written for one chapter; an absent end time is
    [None]. *)
Definition chapter_data (ch : MKVChapter) : pyval :=
  PDict [ (lit "uid", PStr (uid ch));
          (lit "start_time", PStr (start_time ch));
          (lit "end_time", of_opt_str (end_time ch));
          (lit "title", PStr (title ch)) ].

(** The list handed to [json.dump]; JSON keeps strings and [null] as
    they are, so this is also what [json.load] returns for the
    sidecar. *)
Definition chapters_data_of (chapters : list MKVChapter) : pyval :=
  PList (map chapter_data chapters).

(** The simple chapter file of the restore for chapters whose start
    times and titles are strings, numbered from [i]. *)
Fixpoint simple_text (i : nat) (chapters : list MKVChapter) : str :=
  match chapters with
  | [] => []
  | ch :: rest =>
      lit "CHAPTER" ++ fmt_0d 2 (Z.of_nat i) ++ lit "=" ++ start_time ch
        ++ [10%N]
        ++ lit "CHAPTER" ++ fmt_0d 2 (Z.of_nat i) ++ lit "NAME=" ++ title ch
        ++ [10%N]
        ++ simple_text (S i) rest
  end.

(** A chapter reduced to what the restore writes. *)
Definition start_and_title (ch : MKVChapter) : MKVChapter :=
  mkChapter [] (start_time ch) None (title ch).

(** ** Shapes of rendered titles *)

(** Every blank is a single U+0020 followed by a character that is not
    a blank: no run of blanks, no blank at the end. *)
Fixpoint tidy_tail (s : str) : bool :=
  match s with
  | [] => true
  | c :: t =>
      (if isspace c
       then (c =? 32)%N
            && match t with
               | c' :: _ => negb (isspace c')
               | [] => false
               end
       else true)
      && tidy_tail t
  end.

(** A title without a blank at either end and with single U+0020
    blanks inside. *)
Definition tidy (s : str) : bool :=
  tidy_tail s
  && match s with
     | c :: _ => negb (isspace c)
     | [] => true
     end.

(** Every blank is a U+0020 and no two blanks are adjacent. *)
Fixpoint spaced (s : str) : bool :=
  match s with
  | [] => true
  | c :: t =>
      (if isspace c
       then (c =? 32)%N
            && match t with
               | c' :: _ => negb (isspace c')
               | [] => true
               end
       else true)
      && spaced t
  end.

(** Runs of blanks replaced by one U+0020; [in_space] tells that the
    character before was a blank. *)
Fixpoint collapse (in_space : bool) (s : str) : str :=
  match s with
  | [] => []
  | c :: t =>
      if isspace c
      then if in_space then collapse true t else 32%N :: collapse true t
      else c :: collapse false t
  end.

(** The text is a dash, or a U+0020 and a dash. *)
Definition is_dash_tail (s : str) : bool :=
  str_eqb s (lit "-") || str_eqb s (lit " -").

(** The text up to its closing dash. *)
Fixpoint drop_dash (s : str) : str :=
  match s with
  | [] => []
  | c :: t => if is_dash_tail s then [] else c :: drop_dash t
  end.

(** The names [ChapterTemplate.format] passes to [str.format]. *)
Definition variable_names : list str :=
  [ lit "name"; lit "trans_name"; lit "artists"; lit "artist_first";
    lit "album"; lit "id"; lit "popularity" ].

(** A value [str.format] renders within the modelled fragment. *)
Definition printable (v : pyval) : bool :=
  match v with
  | PNone | PBool _ | PInt _ | PStr _ => true
  | PFloat _ | PList _ | PDict _ => false
  end.


(** Two sets of keyword arguments with the same names, all of whose
    values are printable. *)
Definition same_names (vars vars' : list (str * pyval)) : Prop :=
  Forall2 (fun kv kv' => fst kv = fst kv'
                         /\ printable (snd kv) = true
                         /\ printable (snd kv') = true) vars vars'.

(** The keyword arguments of a rendering, all values [None]. *)
Definition blank_variables : list (str * pyval) :=
  map (fun n => (n, PNone)) variable_names.

(** * Properties *)

(** ** Sampling policy *)



Lemma py_max_ge_r (a b : Q) : b <= py_max a b.
Proof.
  unfold py_max. destruct (a ?= b) eqn:E.
  - assert (a == b) by (apply Qeq_alt; exact E). lra.
  - apply Qle_refl.
  - assert (b < a) by (apply Qgt_alt; exact E). lra.
Qed.

(** C5.  [calculate_sample_time] is the four formulas of the sampling
    policy: start + offset; midpoint minus half the duration; the larger
    of start and end - duration - 5; start + (end - start) * percentage
    for any percentage; an unknown end being start + 180 in the last
    three.  The four worked examples give 15, 28.5, 52 and 30. *)
Theorem calculate_sample_time_formulas :
  (forall cfg s e,
      calculate_sample_time cfg s e
      = spec_sample_time (strategy cfg) (offset cfg) (percentage cfg)
                         (duration cfg) s e)
  /\ (forall off pct dur s e,
         calculate_sample_time (mkRecognitionConfig START off pct dur) s e
         = s + off)
  /\ (forall off pct dur s e,
         calculate_sample_time (mkRecognitionConfig CUSTOM off pct dur) s (Some e)
         = s + (e - s) * pct)
  /\ (forall off pct dur s,
         calculate_sample_time (mkRecognitionConfig CUSTOM off pct dur) s None
         = s + (s + 180 - s) * pct)
  /\ (forall off pct dur s,
         calculate_sample_time (mkRecognitionConfig MIDDLE off pct dur) s None
         = (s + (s + 180)) / 2 - inject_Z dur / 2)
  /\ (forall off pct dur s,
         calculate_sample_time (mkRecognitionConfig END_ off pct dur) s None
         = Qmax s (s + 180 - inject_Z dur - 5))
  /\ (forall off pct dur s e,
         calculate_sample_time (mkRecognitionConfig END_ off pct dur) s (Some e)
         = Qmax s (e - inject_Z dur - 5))
  /\ (forall off pct dur s e,
         calculate_sample_time (mkRecognitionConfig MIDDLE off pct dur) s (Some e)
         = (s + e) / 2 - inject_Z dur / 2)
  /\ calculate_sample_time (mkRecognitionConfig START 5 (1 # 2) 3) 10 None == 15
  /\ calculate_sample_time (mkRecognitionConfig MIDDLE 5 (1 # 2) 3) 0 (Some 60)
     == 57 # 2
  /\ calculate_sample_time (mkRecognitionConfig END_ 5 (1 # 2) 3) 0 (Some 60)
     == 52
  /\ calculate_sample_time (mkRecognitionConfig CUSTOM 5 (3 # 10) 3) 0 (Some 100)
     == 30.
Proof.
  split.
  { intros [st off pct dur] s e. unfold calculate_sample_time, spec_sample_time.
    simpl. destruct st, e; reflexivity. }
  repeat split; intros; try reflexivity.
Qed.




(** ** Title templates *)

(** C4, as stated, fails: the rendered title is not ["X - A, B"]. *)
Lemma with_trans_empty_not_spaced :
  ChapterTemplate_init (lit "with_trans") = Ok with_trans_template
  /\ ChapterTemplate_format with_trans_template
       (song_record (PStr (lit "X")) (PStr (lit "A, B")) (PStr []) (PInt 1)
                    (PStr []) (PInt 0))
     <> Ok (lit "X - A, B").
Proof. split; [reflexivity | vm_compute; discriminate]. Qed.

(** C4, amended.  The template ["{name}（{trans_name}）- {artists}"],
    given as the preset [with_trans] or as a raw string, with an empty
    translated name, name ["X"] and artists ["A, B"], renders to
    ["X- A, B"]: the token goes with its two brackets, no empty bracket
    pair and no double space is left, and no space is put before the
    dash. *)
Theorem with_trans_empty_renders :
  ChapterTemplate_init (lit "with_trans") = Ok with_trans_template
  /\ ChapterTemplate_init with_trans_template = Ok with_trans_template
  /\ forall album id popularity,
       ChapterTemplate_format with_trans_template
         (song_record (PStr (lit "X")) (PStr (lit "A, B")) album id
                      (PStr []) popularity)
       = Ok (lit "X- A, B").
Proof.
  split; [reflexivity|]. split; [reflexivity|].
  intros. vm_compute. reflexivity.
Qed.

(** ** Audio sample validation *)

Lemma unpack_f32le_length (n : nat) :
  forall buffer, List.length buffer = (4 * n)%nat ->
                 List.length (unpack_f32le buffer) = n.
Proof.
  induction n as [|n IH]; intros buffer H.
  - destruct buffer; [reflexivity | discriminate].
  - destruct buffer as [|b0 [|b1 [|b2 [|b3 rest]]]]; simpl in H; try lia.
    simpl. f_equal. apply IH. lia.
Qed.

Lemma expected_size_value : (SAMPLECOUNT * 4 = 96000)%Z.
Proof. reflexivity. Qed.

Lemma samples_of_output_short (buffer : list Byte.byte) :
  (Z.of_nat (List.length buffer) < 96000)%Z ->
  samples_of_output (0%Z, buffer) = None.
Proof.
  intro H. unfold samples_of_output.
  change (0 =? 0)%Z with true. cbv iota.
  rewrite expected_size_value.
  destruct (Z.ltb_spec (Z.of_nat (List.length buffer)) 96000); [reflexivity | lia].
Qed.

Lemma samples_of_output_enough (buffer : list Byte.byte) :
  (96000 <= Z.of_nat (List.length buffer))%Z ->
  samples_of_output (0%Z, buffer)
  = Some (unpack_f32le (firstn (Z.to_nat 96000) buffer)).
Proof.
  intro H. unfold samples_of_output.
  change (0 =? 0)%Z with true. cbv iota.
  rewrite expected_size_value.
  destruct (Z.ltb_spec (Z.of_nat (List.length buffer)) 96000); [lia | reflexivity].
Qed.

Lemma samples_of_output_count (completed : Z * list Byte.byte) samples :
  samples_of_output completed = Some samples ->
  Z.of_nat (List.length samples) = SAMPLECOUNT.
Proof.
  destruct completed as [rc buffer]. unfold samples_of_output.
  destruct (rc =? 0)%Z; [|discriminate].
  rewrite expected_size_value.
  destruct (Z.ltb_spec (Z.of_nat (List.length buffer)) 96000); [discriminate|].
  intro E.
  assert (S : samples = unpack_f32le (firstn (Z.to_nat 96000) buffer))
    by congruence.
  rewrite S, (@unpack_f32le_length (Z.to_nat 24000)).
  - rewrite Z2Nat.id by lia. reflexivity.
  - rewrite length_firstn. lia.
Qed.

(** C6, as stated, fails: asked for one second, ffmpeg exits 0 with
    exactly 8000 * 1 * 4 bytes, and the extraction still reports
    insufficient audio data. *)
Lemma one_second_sample_rejected :
  let w := example_world [] [] no_match_response in
  fst (run_ffmpeg w 0 0 1) = 0%Z
  /\ Z.of_nat (List.length (snd (run_ffmpeg w 0 0 1))) = (SAMPLERATE * 1 * 4)%Z
  /\ snd (extract_audio_sample w 0 0 1 []) = Ok None.
Proof. vm_compute. repeat split. Qed.

(** C6, amended.  When ffmpeg exits 0, whatever duration [d] was asked
    for, the extraction returns no samples exactly when the buffer is
    shorter than SAMPLERATE * DURATION * 4 = 96000 bytes, [DURATION]
    being the fixed three seconds of a fingerprint; otherwise the buffer
    is cut to exactly 96000 bytes and unpacked into exactly 24000
    samples.  Nothing is raised in either case. *)
Theorem extract_audio_sample_size_check :
  forall (w : world) (i : nat) (start_time : Q) (d : Z) (log : list event),
    fst (run_ffmpeg w i start_time d) = 0%Z ->
    let buffer := snd (run_ffmpeg w i start_time d) in
    let r := snd (extract_audio_sample w i start_time d log) in
    (SAMPLERATE * DURATION * 4 = 96000)%Z
    /\ (r = Ok None <-> (Z.of_nat (List.length buffer) < 96000)%Z)
    /\ ((96000 <= Z.of_nat (List.length buffer))%Z ->
        List.length (firstn (Z.to_nat 96000) buffer) = Z.to_nat 96000
        /\ r = Ok (Some (unpack_f32le (firstn (Z.to_nat 96000) buffer)))
        /\ Z.of_nat (List.length (unpack_f32le (firstn (Z.to_nat 96000) buffer)))
           = 24000%Z).
Proof.
  intros w i start_time d log Hrc buffer r.
  assert (Hr : r = Ok (samples_of_output (0%Z, buffer))).
  { unfold r, buffer, extract_audio_sample, mbind, emit, ret.
    cbv beta iota. unfold snd at 1.
    destruct (run_ffmpeg w i start_time d) as [rc buf].
    unfold fst in Hrc. subst rc. reflexivity. }
  split; [reflexivity|]. split.
  - rewrite Hr. split.
    + intro E. destruct (Z.ltb_spec (Z.of_nat (List.length buffer)) 96000) as [L|L];
        [exact L|].
      rewrite (samples_of_output_enough _ L) in E. discriminate.
    + intro L. rewrite (samples_of_output_short _ L). reflexivity.
  - intro L. split; [rewrite length_firstn; lia|]. split.
    + rewrite Hr, (samples_of_output_enough _ L). reflexivity.
    + rewrite (@unpack_f32le_length (Z.to_nat 24000));
        [rewrite Z2Nat.id by lia; reflexivity|].
      rewrite length_firstn. lia.
Qed.

(** Three seconds asked for and delivered. *)
Lemma extract_audio_sample_size_check_witness :
  let w := example_world [] [] no_match_response in
  snd (extract_audio_sample w 0 0 3 [])
  = Ok (Some (unpack_f32le (firstn (Z.to_nat 96000) (snd (run_ffmpeg w 0 0 3))))).
Proof.
  intro w.
  refine (proj1 (proj2 (proj2 (proj2
            (@extract_audio_sample_size_check w 0%nat 0 3%Z [] _)) _))).
  - reflexivity.
  - vm_compute. discriminate.
Defined.

(** ** Configuration merging *)

(** C7 at its failing input.  The user types [--strategy start]; the
    configuration file asks for [middle]; the merged strategy is
    [middle]: a command-line value equal to the parser's default is
    taken for an option left out, and the file value wins. *)
Theorem explicit_default_loses_to_file :
  cl_strategy cl_strategy_start = Some (lit "start")
  /\ merged_setting
       (merge_config_with_args config_strategy_middle
                               (parse_args cl_strategy_start))
       (lit "recognition") (lit "strategy")
     = Ok (PStr (lit "middle")).
Proof. split; reflexivity. Qed.

(** A command-line strategy other than the default does take
    precedence, whatever a well-formed file says. *)
Lemma non_default_strategy_wins (cl : CommandLine) (config : list (str * pyval)) s :
  cl_strategy cl = Some s ->
  str_eqb s (lit "start") = false ->
  is_ok (merge_config_with_args (PDict config) (parse_args cl)) = true ->
  merged_setting (merge_config_with_args (PDict config) (parse_args cl))
                 (lit "recognition") (lit "strategy")
  = Ok (PStr s).
Proof.
  intros Hs Hne Hok.
  unfold merge_config_with_args in *.
  unfold parse_args in *. cbn [arg_strategy arg_mkv_file arg_output arg_template
    arg_offset arg_percentage arg_duration arg_ffmpeg arg_mkvextract
    arg_mkvpropedit arg_no_backup arg_skip_check] in *.
  rewrite Hs in *. cbn [or_default] in *. rewrite Hne in *.
  cbn [negb py_if] in *.
  repeat match goal with
  | H : is_ok (bind ?m _) = true |- context [bind ?m _] =>
      destruct m; [cbn [bind] in H |- * | discriminate H]
  end.
  reflexivity.
Qed.

(** ** Restoring from a backup *)








(** ** Time strings *)

Section SplitFacts.

Lemma split_nonempty c s : split c s <> [].
Proof.
  destruct s as [|x t]; simpl; [discriminate|].
  destruct (N.eqb x c); [discriminate|].
  destruct (split c t); discriminate.
Qed.

Lemma split_no_sep c a :
  forallb (fun x => negb (N.eqb x c)) a = true -> split c a = [a].
Proof.
  induction a as [|x a IH]; simpl; intro H; [reflexivity|].
  apply andb_true_iff in H as [Hx Ha].
  apply negb_true_iff in Hx. rewrite Hx, (IH Ha). reflexivity.
Qed.

Lemma split_sep c a rest :
  forallb (fun x => negb (N.eqb x c)) a = true ->
  split c (a ++ c :: rest) = a :: split c rest.
Proof.
  induction a as [|x a IH]; simpl; intro H.
  - rewrite N.eqb_refl. reflexivity.
  - apply andb_true_iff in H as [Hx Ha].
    apply negb_true_iff in Hx. rewrite Hx, (IH Ha). reflexivity.
Qed.

End SplitFacts.














Lemma round_half_even_nonneg (q : Q) : 0 <= q -> (0 <= round_half_even q)%Z.
Proof.
  intro H. unfold round_half_even.
  assert (F : (0 <= Qfloor q)%Z).
  { change 0%Z with (Qfloor (inject_Z 0)). apply Qfloor_resp_le. exact H. }
  destruct ((q - inject_Z (Qfloor q)) ?= (1 # 2)); [|lia|lia].
  destruct (Z.even (Qfloor q)); lia.
Qed.











(** ** The pipeline *)

Section Logging.

Lemma appends_ret {A} (a : A) : appends (ret a).
Proof. intro log. unfold ret. simpl. rewrite app_nil_r. reflexivity. Qed.

Lemma appends_raise {A} (e : exn) : appends (@raise A e).
Proof. intro log. unfold raise. simpl. rewrite app_nil_r. reflexivity. Qed.

Lemma appends_lift {A} (r : result A) : appends (lift r).
Proof. intro log. unfold lift. simpl. rewrite app_nil_r. reflexivity. Qed.

Lemma appends_emit (e : event) : appends (emit e).
Proof. intro log. reflexivity. Qed.

Lemma appends_bind {A B} (m : M A) (f : A -> M B) :
  appends m -> (forall a, appends (f a)) -> appends (mbind m f).
Proof.
  intros Hm Hf log. unfold mbind.
  rewrite (Hm log). destruct (m []) as [l0 [a|e]]; simpl.
  - rewrite (Hf a (log ++ l0)), (Hf a l0). simpl.
    rewrite app_assoc. reflexivity.
  - reflexivity.
Qed.

Lemma bind_nil {A B} (m : M A) (f : A -> M B) :
  appends m -> (forall a, appends (f a)) ->
  mbind m f [] =
  match snd (m []) with
  | Ok a => (fst (m []) ++ fst (f a []), snd (f a []))
  | Raise e => (fst (m []), Raise e)
  end.
Proof.
  intros Hm Hf. unfold mbind.
  destruct (m []) as [l0 [a|e]]; simpl; [|reflexivity].
  rewrite (Hf a l0). reflexivity.
Qed.

End Logging.

#[local] Hint Resolve appends_ret appends_raise appends_lift appends_emit
  appends_bind : appends.

Lemma appends_generate_fingerprint w i sample :
  appends (generate_fingerprint w i sample).
Proof.
  unfold generate_fingerprint.
  destruct (Z.of_nat (List.length sample) =? SAMPLECOUNT)%Z; auto with appends.
Qed.

Lemma appends_recognize_song w i samples : appends (recognize_song w i samples).
Proof.
  unfold recognize_song.
  set (attempt := mbind (generate_fingerprint w i samples) _).
  assert (Ha : appends attempt).
  { unfold attempt. apply appends_bind; [apply appends_generate_fingerprint|].
    intro fp. auto 10 with appends. }
  intro log. rewrite (Ha log).
  destruct (attempt []) as [l0 [v|e]]; reflexivity.
Qed.

Lemma appends_extract_audio_sample w i t d :
  appends (extract_audio_sample w i t d).
Proof. unfold extract_audio_sample. auto with appends. Qed.

Lemma appends_process_chapter w cfg template i chapter :
  appends (process_chapter w cfg template i chapter).
Proof.
  unfold process_chapter.
  apply appends_bind; [auto with appends|]. intro t.
  apply appends_bind; [apply appends_extract_audio_sample|].
  intros [samples|]; [|auto with appends].
  apply appends_bind; [apply appends_recognize_song|].
  intros [[|kv rest]|]; auto 10 with appends.
Qed.

Lemma appends_process_chapters w cfg template chapters :
  forall i, appends (process_chapters w cfg template i chapters).
Proof.
  induction chapters as [|c rest IH]; intro i; simpl.
  - auto with appends.
  - apply appends_bind; [apply appends_process_chapter|]. intro r.
    apply appends_bind; [apply IH|]. intro rs. auto with appends.
Qed.

(** No step of recognition calls the metadata-write tool. *)
Lemma recognize_song_quiet w i samples :
  write_invoked (fst (recognize_song w i samples [])) = false.
Proof.
  unfold recognize_song, generate_fingerprint, mbind, emit, lift, raise.
  destruct (Z.of_nat (List.length samples) =? SAMPLECOUNT)%Z; [|reflexivity].
  simpl. destruct (GenerateFP w i samples) as [fp|e]; [|reflexivity].
  simpl. destruct (GetMatchTrackByFP w i fp DURATION) as [r|e]; [|reflexivity].
  simpl. destruct (song_of_response r); reflexivity.
Qed.

(** [recognize_song] catches whatever is raised. *)
Lemma recognize_song_no_raise w i samples log :
  exists v, snd (recognize_song w i samples log) = Ok v.
Proof.
  unfold recognize_song.
  match goal with
  | |- context [match ?a log with _ => _ end] => destruct (a log) as [l [v|e]]
  end; eexists; reflexivity.
Qed.

Lemma process_chapter_nil w cfg template i chapter :
  snd (process_chapter w cfg template i chapter [])
  = chapter_step w cfg template i chapter
  /\ write_invoked (fst (process_chapter w cfg template i chapter [])) = false.
Proof.
  unfold process_chapter, chapter_step, recognition_of.
  destruct (chapter_sample_start cfg chapter) as [t|e]; [|split; reflexivity].
  unfold mbind, lift, extract_audio_sample. unfold mbind, emit, ret.
  cbn [app bind].
  destruct (samples_of_output (run_ffmpeg w i t 3)) as [samples|];
    [|split; reflexivity].
  pose proof (appends_recognize_song w i samples [EvFfmpeg i t 3]) as Ha.
  pose proof (recognize_song_quiet w i samples) as Hq.
  rewrite Ha. unfold write_invoked in *.
  destruct (recognize_song w i samples []) as [l0 [[[|kv rest]|]|e]];
    cbn [fst snd] in *.
  - split; [reflexivity|]. rewrite existsb_app, Hq. reflexivity.
  - destruct (ChapterTemplate_format template (kv :: rest)); cbn [bind fst snd];
      (split; [reflexivity|]); rewrite existsb_app, Hq; reflexivity.
  - split; [reflexivity|]. rewrite existsb_app, Hq. reflexivity.
  - destruct (recognize_song_no_raise w i samples [EvFfmpeg i t 3]) as [v Hv].
    rewrite Ha in Hv. discriminate Hv.
Qed.

Lemma process_chapters_nil w cfg template chapters :
  forall i,
    snd (process_chapters w cfg template i chapters [])
    = chapter_steps w cfg template i chapters
    /\ write_invoked (fst (process_chapters w cfg template i chapters [])) = false.
Proof.
  induction chapters as [|c rest IH]; intro i; simpl; [split; reflexivity|].
  rewrite bind_nil;
    [|apply appends_process_chapter
     |intro r; apply appends_bind;
      [apply appends_process_chapters | intro; apply appends_ret]].
  destruct (process_chapter_nil w cfg template i c) as [Hs Hw].
  rewrite Hs. destruct (chapter_step w cfg template i c) as [r|e]; cbn [bind].
  2:{ split; [reflexivity | exact Hw]. }
  rewrite bind_nil;
    [|apply appends_process_chapters | intro; apply appends_ret].
  destruct (IH (S i)) as [Hs' Hw']. rewrite Hs'.
  destruct (chapter_steps w cfg template (S i) rest) as [rs|e]; cbn [bind fst snd].
  - split; [reflexivity|]. unfold write_invoked in *.
    rewrite !existsb_app, Hw, Hw'. reflexivity.
  - split; [reflexivity|]. unfold write_invoked in *.
    rewrite !existsb_app, Hw, Hw'. reflexivity.
Qed.

Lemma chapter_step_unrecognised w cfg template i c r :
  chapter_step w cfg template i c = Ok r ->
  recognition_of w cfg i c = None ->
  r = (c, false).
Proof.
  unfold chapter_step. destruct (chapter_sample_start cfg c); [|discriminate].
  cbn [bind]. intros H E. rewrite E in H. congruence.
Qed.

Lemma chapter_step_recognised w cfg template i c r song :
  chapter_step w cfg template i c = Ok r ->
  recognition_of w cfg i c = Some song ->
  exists t, ChapterTemplate_format template song = Ok t
            /\ r = (set_title c t, true).
Proof.
  unfold chapter_step. destruct (chapter_sample_start cfg c); [|discriminate].
  cbn [bind]. intros H E. rewrite E in H.
  destruct (ChapterTemplate_format template song) as [t|e]; [|discriminate].
  exists t. split; [reflexivity | cbn [bind] in H; congruence].
Qed.

Lemma chapter_step_flag w cfg template i c r :
  chapter_step w cfg template i c = Ok r ->
  (snd r = true <-> recognition_of w cfg i c <> None).
Proof.
  intro H. destruct (recognition_of w cfg i c) as [song|] eqn:E.
  - destruct (chapter_step_recognised _ _ _ _ _ H E) as (t & _ & ->).
    split; [discriminate | reflexivity].
  - rewrite (chapter_step_unrecognised _ _ _ _ _ H E).
    split; [discriminate | congruence].
Qed.

Lemma chapter_step_total w cfg template i c :
  is_ok (chapter_sample_start cfg c) = true ->
  (forall song, recognition_of w cfg i c = Some song ->
                is_ok (ChapterTemplate_format template song) = true) ->
  exists r, chapter_step w cfg template i c = Ok r.
Proof.
  unfold chapter_step. intros H1 H2.
  destruct (chapter_sample_start cfg c); [|discriminate]. cbn [bind].
  destruct (recognition_of w cfg i c) as [song|]; [|eexists; reflexivity].
  specialize (H2 song eq_refl).
  destruct (ChapterTemplate_format template song); [|discriminate].
  eexists. reflexivity.
Qed.

Lemma chapter_steps_ok w cfg template chapters :
  forall i chapters' n,
    chapter_steps w cfg template i chapters = Ok (chapters', n) ->
    List.length chapters' = List.length chapters
    /\ (0 <= n)%Z
    /\ (forall k c, nth_error chapters k = Some c ->
          exists r, chapter_step w cfg template (i + k) c = Ok r
                    /\ nth_error chapters' k = Some (fst r))
    /\ ((0 < n)%Z <->
        exists k c, nth_error chapters k = Some c
                    /\ recognition_of w cfg (i + k) c <> None).
Proof.
  induction chapters as [|c rest IH]; intros i chapters' n H; simpl in H.
  - injection H as <- <-. repeat split; try lia.
    + intros [|k] c0 Hk; discriminate.
    + intros (k & c0 & Hk & _). destruct k; discriminate.
  - destruct (chapter_step w cfg template i c) as [r|e] eqn:Er; [|discriminate].
    cbn [bind] in H.
    destruct (chapter_steps w cfg template (S i) rest) as [[cs m]|e] eqn:Es;
      [|discriminate].
    cbn [bind fst snd] in H. injection H as <- <-.
    destruct (IH _ _ _ Es) as (L & P & N & W).
    pose proof (chapter_step_flag _ _ _ _ _ Er) as F.
    split; [simpl; lia|]. split; [destruct (snd r); lia|]. split.
    + intros [|k] c0 Hk.
      * injection Hk as <-. exists r. rewrite Nat.add_0_r. split; [exact Er|reflexivity].
      * destruct (N k c0 Hk) as (r0 & E0 & H0). exists r0.
        replace (i + S k)%nat with (S i + k)%nat by lia. split; assumption.
    + split.
      * intro Hpos. destruct (snd r) eqn:Sr.
        -- exists 0%nat, c. rewrite Nat.add_0_r. split; [reflexivity|].
           apply F. reflexivity.
        -- assert (Hm : (0 < m)%Z) by lia.
           apply W in Hm. destruct Hm as (k & c0 & Hk & Hr).
           exists (S k), c0. replace (i + S k)%nat with (S i + k)%nat by lia.
           split; assumption.
      * intros ([|k] & c0 & Hk & Hr).
        -- injection Hk as <-. rewrite Nat.add_0_r in Hr.
           apply F in Hr. rewrite Hr. lia.
        -- assert (Hm : (0 < m)%Z).
           { apply W. exists k, c0.
             replace (S i + k)%nat with (i + S k)%nat by lia. split; assumption. }
           destruct (snd r); lia.
Qed.

Lemma chapter_steps_total w cfg template chapters :
  forall i,
    (forall k c, nth_error chapters k = Some c ->
       exists r, chapter_step w cfg template (i + k) c = Ok r) ->
    exists chapters' n, chapter_steps w cfg template i chapters = Ok (chapters', n).
Proof.
  induction chapters as [|c rest IH]; intros i H; simpl.
  - eexists _, _. reflexivity.
  - destruct (H 0%nat c eq_refl) as [r Hr]. rewrite Nat.add_0_r in Hr.
    rewrite Hr. cbn [bind].
    destruct (IH (S i)) as (cs & m & Hs).
    { intros k c0 Hk. replace (S i + k)%nat with (i + S k)%nat by lia.
      apply H. exact Hk. }
    rewrite Hs. cbn [bind]. eexists _, _. reflexivity.
Qed.

(** The whole run in terms of the loop: the log before the commit
    holds no call of the write tool. *)
Lemma process_run w cfg template output_file backup :
  fst (run_mkvextract w) = 0%Z ->
  let chapters := _parse_chapter_xml (snd (run_mkvextract w)) in
  exists log0,
    let log1 := log0 ++ fst (process_chapters w cfg template 0 chapters []) in
    write_invoked log1 = false
    /\ process w cfg template output_file backup
       = match chapter_steps w cfg template 0 chapters with
         | Raise e => (log1, Raise e)
         | Ok (chapters', n) =>
             if (0 <? n)%Z
             then (log1 ++ [EvMkvpropedit output_file (_generate_chapter_xml chapters')],
                   if negb (run_mkvpropedit w (_generate_chapter_xml chapters') =? 0)%Z
                   then Raise RuntimeError else Ok chapters')
             else (log1, Ok chapters')
         end.
Proof.
  intros Hrc chapters. unfold process, extract_chapters.
  unfold mbind at 1. unfold mbind at 1. unfold emit at 1. cbn [app].
  destruct (run_mkvextract w) as [rc xml]. cbn [fst snd] in *. subst rc.
  cbn [Z.eqb negb]. unfold ret at 1.
  fold chapters. unfold process_extracted.
  destruct chapters as [|c0 rest] eqn:Ec.
  { exists [EvMkvextract]. split; reflexivity. }
  rewrite <- Ec. clear Ec.
  set (pre := if backup then _backup_chapters chapters else ret tt).
  assert (Hpre : exists l, pre [EvMkvextract] = (l, Ok tt) /\ write_invoked l = false).
  { unfold pre. destruct backup; eexists; split; reflexivity. }
  destruct Hpre as (l & Hl & Wl).
  unfold mbind at 1. rewrite Hl.
  unfold mbind at 1.
  rewrite (appends_process_chapters w cfg template chapters 0 l).
  destruct (process_chapters_nil w cfg template chapters 0) as [Hs Hw].
  destruct (process_chapters w cfg template 0 chapters []) as [l2 r2].
  cbn [fst snd] in *. rewrite <- Hs.
  exists l. cbv zeta. split.
  { unfold write_invoked in *. rewrite existsb_app, Wl, Hw. reflexivity. }
  destruct r2 as [[chapters' n]|e]; [|reflexivity].
  destruct (0 <? n)%Z; [|reflexivity].
  unfold update_chapters, mbind, emit, ret, raise.
  destruct (negb (run_mkvpropedit w (_generate_chapter_xml chapters') =? 0)%Z);
    reflexivity.
Qed.



Lemma process_extract_failed w cfg template output_file backup :
  fst (run_mkvextract w) <> 0%Z ->
  process w cfg template output_file backup = ([EvMkvextract], Raise RuntimeError).
Proof.
  intro H. unfold process, extract_chapters, mbind, emit. cbn [app].
  destruct (run_mkvextract w) as [rc xml]. cbn [fst] in H.
  destruct (Z.eqb_spec rc 0); [contradiction | reflexivity].
Qed.

Lemma write_invoked_commit log output_file doc :
  write_invoked (log ++ [EvMkvpropedit output_file doc]) = true.
Proof.
  unfold write_invoked. rewrite existsb_app. simpl. apply orb_true_r.
Qed.

(** A write means that some chapter was recognised, whatever else
    happens in the run. *)
Lemma write_needs_recognition w cfg template output_file backup :
  write_invoked (fst (process w cfg template output_file backup)) = true ->
  exists k, recognised w cfg (_parse_chapter_xml (snd (run_mkvextract w))) k.
Proof.
  intro H. destruct (Z.eq_dec (fst (run_mkvextract w)) 0) as [Hrc|Hrc].
  2:{ rewrite (@process_extract_failed _ _ _ _ _ Hrc) in H. discriminate H. }
  destruct (@process_run w cfg template output_file backup Hrc)
    as (log1 & W1 & E).
  rewrite E in H. clear E.
  destruct (chapter_steps w cfg template 0
              (_parse_chapter_xml (snd (run_mkvextract w))))
    as [[chapters' n]|e] eqn:Es.
  2:{ cbn [fst] in H. congruence. }
  destruct (Z.ltb_spec 0 n) as [Hn|Hn].
  2:{ cbn [fst] in H. congruence. }
  destruct (@chapter_steps_ok _ _ _ _ _ _ _ Es) as (_ & _ & _ & Wn).
  apply Wn in Hn. destruct Hn as (k & c & Hk & Hr).
  exists k, c. split; assumption.
Qed.

(** C2, as stated, fails: the one chapter is recognised, the rendered
    title is the title it already had, no title changes, and the write
    tool is invoked all the same. *)
Lemma rewrite_without_change :
  let run := process recognised_world default_config default_template None true in
  _parse_chapter_xml (snd (run_mkvextract recognised_world)) = [recognised_chapter]
  /\ snd run = Ok [recognised_chapter]
  /\ write_invoked (fst run) = true.
Proof. vm_compute. repeat split. Qed.

(** C2, amended.  A run invokes the chapter-metadata write step only
    if the recognition of at least one chapter succeeded, and, when no
    time string or template raises, whenever it did: what counts is a
    successful recognition, whether or not the rendered title differs
    from the old one.  A run in which no recognition succeeds, or in
    which the tools return no match wherever they are asked, never
    invokes the write tool. *)
Theorem write_iff_recognised :
  forall (w : world) (cfg : RecognitionConfig) (template : str)
         (output_file : option str) (backup : bool),
    let chapters := _parse_chapter_xml (snd (run_mkvextract w)) in
    let run := process w cfg template output_file backup in
    (write_invoked (fst run) = true -> exists k, recognised w cfg chapters k)
    /\ ((forall k c, nth_error chapters k = Some c ->
                     recognition_of w cfg k c = None) ->
        write_invoked (fst run) = false)
    /\ ((forall i t,
            match samples_of_output (run_ffmpeg w i t 3) with
            | Some samples => snd (recognize_song w i samples []) = Ok None
            | None => True
            end) ->
        write_invoked (fst run) = false)
    /\ (fst (run_mkvextract w) = 0%Z ->
        (forall c, In c chapters -> is_ok (chapter_sample_start cfg c) = true) ->
        (forall k c song_info,
            nth_error chapters k = Some c ->
            recognition_of w cfg k c = Some song_info ->
            is_ok (ChapterTemplate_format template song_info) = true) ->
        (write_invoked (fst run) = true <-> exists k, recognised w cfg chapters k)).
Proof.
  intros w cfg template output_file backup chapters run.
  assert (A : write_invoked (fst run) = true -> exists k, recognised w cfg chapters k)
    by apply write_needs_recognition.
  assert (B : (forall k c, nth_error chapters k = Some c ->
                           recognition_of w cfg k c = None) ->
              write_invoked (fst run) = false).
  { intro Hnone. destruct (write_invoked (fst run)) eqn:Ew; [|reflexivity].
    destruct (A eq_refl) as (k & c & Hk & Hr).
    rewrite (Hnone k c Hk) in Hr. congruence. }
  split; [exact A|]. split; [exact B|]. split.
  - intro Hworld. apply B. intros k c _. unfold recognition_of.
    destruct (chapter_sample_start cfg c) as [t|e]; [|reflexivity].
    specialize (Hworld k t).
    destruct (samples_of_output (run_ffmpeg w k t 3)) as [samples|];
      [|reflexivity].
    rewrite Hworld. reflexivity.
  - intros Hrc Htimes Hrender. split; [exact A|].
    intros (k & c & Hk & Hr).
    destruct (@process_run w cfg template output_file backup Hrc)
      as (log1 & W1 & E).
    fold chapters in E. unfold run. rewrite E. clear E.
    destruct (@chapter_steps_total w cfg template chapters 0%nat) as (cs & n & Es).
    { intros j cj Hj. apply chapter_step_total.
      - apply Htimes. eapply nth_error_In; exact Hj.
      - intros song Hsong. eapply Hrender; eassumption. }
    rewrite Es.
    destruct (@chapter_steps_ok _ _ _ _ _ _ _ Es) as (_ & _ & _ & Wn).
    assert (Hn : (0 < n)%Z) by (apply Wn; exists k, c; split; assumption).
    destruct (Z.ltb_spec 0 n); [|lia].
    cbn [fst]. apply write_invoked_commit.
Qed.

(** The five-chapter run, where four chapters are recognised. *)
Lemma write_iff_recognised_witness :
  write_invoked
    (fst (process five_world default_config default_template None true)) = true.
Proof.
  apply (proj2 (proj2 (proj2 (@write_iff_recognised five_world default_config
                                default_template None true)))).
  - reflexivity.
  - intros c Hc. vm_compute in Hc.
    repeat (destruct Hc as [<-|Hc]; [vm_compute; reflexivity|]).
    destruct Hc.
  - intros k c song Hk Hr.
    do 5 (destruct k as [|k];
          [vm_compute in Hk; injection Hk as <-;
           vm_compute in Hr; first [discriminate Hr | injection Hr as <-];
           vm_compute; reflexivity|]).
    vm_compute in Hk. destruct k; discriminate Hk.
  - exists 0%nat. eexists. split; [vm_compute; reflexivity|].
    vm_compute. discriminate.
Defined.



(** ** The chapter XML codec *)

Section Strings.

Lemma startswith_app (l s : str) : startswith l (l ++ s) = true.
Proof.
  induction l as [|x l IH]; simpl; [reflexivity|].
  rewrite N.eqb_refl, IH. reflexivity.
Qed.

Lemma skipn_app_length (l s : str) : skipn (List.length l) (l ++ s) = s.
Proof. induction l; simpl; auto. Qed.

Lemma firstn_app_length (f t : str) :
  firstn (List.length (f ++ t) - List.length t) (f ++ t) = f.
Proof.
  rewrite length_app.
  replace (List.length f + List.length t - List.length t)%nat
    with (List.length f) by lia.
  rewrite firstn_app, Nat.sub_diag, firstn_all. simpl. apply app_nil_r.
Qed.

Lemma mismatch_startswith (l b tail : str) :
  mismatch l b = true -> startswith l (b ++ tail) = false.
Proof.
  revert b. induction l as [|x l IH]; intros [|y b] H; simpl in *;
    try discriminate.
  destruct (N.eqb x y); simpl in *; [apply IH; exact H | reflexivity].
Qed.

Lemma mismatch_all_early_free (l pre tail : str) :
  mismatch_all l pre = true -> early_free l pre tail.
Proof.
  induction pre as [|x pre IH]; intros H a b E Hb.
  - destruct a; destruct b; simpl in E; try discriminate. congruence.
  - simpl in H. apply andb_true_iff in H as [H1 H2].
    destruct a as [|y a]; simpl in E.
    + subst b. apply mismatch_startswith. exact H1.
    + injection E as _ E. exact (IH H2 a b E Hb).
Qed.

(** Splitting a text that begins with [l] after a prefix [b]: either
    [l] lies within [b], or [b] is a proper prefix of [l]. *)
Lemma startswith_split (l b m : str) :
  startswith l (b ++ m) = true ->
  startswith l b = true
  \/ exists l2, l2 <> [] /\ l = b ++ l2 /\ startswith l2 m = true.
Proof.
  revert b. induction l as [|x l IH]; intros b H.
  - left. reflexivity.
  - destruct b as [|y b].
    + right. exists (x :: l). repeat split; [discriminate | exact H].
    + simpl in H. apply andb_true_iff in H as [Hxy H].
      apply N.eqb_eq in Hxy. subst y.
      destruct (IH b H) as [Hl|(l2 & Hne & E & Hs)].
      * left. simpl. rewrite N.eqb_refl. exact Hl.
      * right. exists l2. repeat split; [exact Hne | simpl; congruence | exact Hs].
Qed.

Lemma contains_suffix (l a b : str) :
  startswith l b = true -> contains l (a ++ b) = true.
Proof.
  intro H. induction a as [|x a IH]; simpl.
  - destruct b; simpl in *; rewrite H; reflexivity.
  - rewrite IH. apply orb_true_r.
Qed.

(** A field that does not hold its closing tag is read up to that tag:
    the tag begins with a character it does not repeat, so it cannot
    start inside the field. *)
Lemma field_early_free (c : char) (l' f rest : str) :
  existsb (N.eqb c) l' = false ->
  contains (c :: l') f = false ->
  early_free (c :: l') f ((c :: l') ++ rest).
Proof.
  intros Hc Hf a b E Hb.
  destruct (startswith (c :: l') (b ++ (c :: l') ++ rest)) eqn:S; [|reflexivity].
  exfalso. destruct (startswith_split _ _ _ S) as [Hin|(l2 & Hne & El & Hs)].
  - rewrite E, (contains_suffix _ a _ Hin) in Hf. discriminate.
  - destruct b as [|y b]; [congruence|].
    simpl in El. injection El as Ey El. subst y.
    destruct l2 as [|z l2]; [congruence|].
    simpl in Hs. apply andb_true_iff in Hs as [Hz _].
    apply N.eqb_eq in Hz. subst z.
    assert (In c l') by (rewrite El; apply in_or_app; right; left; reflexivity).
    assert (existsb (N.eqb c) l' = true).
    { apply existsb_exists. exists c. split; [assumption | apply N.eqb_refl]. }
    congruence.
Qed.

End Strings.

Section Matching.

Variable A : Type.
Implicit Types (k : str -> option A) (K : str -> captures -> option A).

Lemma star_lazy_to k (pre s : str) (r : A) :
  (forall a b, pre = a ++ b -> b <> [] -> k (b ++ s) = None) ->
  k s = Some r ->
  star_lazy any_char k (pre ++ s) = Some r.
Proof.
  induction pre as [|x pre IH]; intros Hskip Hk.
  - simpl. destruct s; simpl; rewrite Hk; reflexivity.
  - pose proof (Hskip [] (x :: pre) eq_refl ltac:(discriminate)) as H0.
    simpl in H0. simpl. rewrite H0.
    apply IH; [|exact Hk].
    intros a b E Hb. apply (Hskip (x :: a) b); [simpl; congruence | exact Hb].
Qed.

Lemma exec_lit_here (l s : str) caps K :
  exec (RLit l) (l ++ s) caps K = K s caps.
Proof. simpl. rewrite startswith_app, skipn_app_length. reflexivity. Qed.

Lemma exec_lit_fail (l s : str) caps K :
  startswith l s = false -> exec (RLit l) s caps K = None.
Proof. intro H. simpl. rewrite H. reflexivity. Qed.

(** A lazy run followed by a literal stops at the first place where the
    literal is found. *)
Lemma lazy_to (l pre rest : str) (R : regex) caps K (r : A) :
  early_free l pre (l ++ rest) ->
  exec R rest caps K = Some r ->
  exec (RSeq (RLazy any_char) (RSeq (RLit l) R)) (pre ++ l ++ rest) caps K
  = Some r.
Proof.
  intros Hfree Hr. cbn [exec].
  apply star_lazy_to.
  - intros a b E Hb. rewrite (Hfree a b E Hb). reflexivity.
  - rewrite startswith_app, skipn_app_length. exact Hr.
Qed.

(** The same for a capturing group: the group holds the text skipped. *)
Lemma group_to (i : nat) (l f rest : str) (R : regex) caps K (r : A) :
  early_free l f (l ++ rest) ->
  exec R rest ((i, f) :: caps) K = Some r ->
  exec (RSeq (RGroup i (RLazy any_char)) (RSeq (RLit l) R)) (f ++ l ++ rest)
       caps K
  = Some r.
Proof.
  intros Hfree Hr. cbn [exec].
  apply star_lazy_to.
  - intros a b E Hb. rewrite (Hfree a b E Hb). reflexivity.
  - rewrite startswith_app, skipn_app_length, firstn_app_length. exact Hr.
Qed.

(** The same at the end of a pattern. *)
Lemma group_to_end (i : nat) (l f rest : str) caps K (r : A) :
  early_free l f (l ++ rest) ->
  K rest ((i, f) :: caps) = Some r ->
  exec (RSeq (RGroup i (RLazy any_char)) (RLit l)) (f ++ l ++ rest) caps K
  = Some r.
Proof.
  intros Hfree Hr. cbn [exec].
  apply star_lazy_to.
  - intros a b E Hb. rewrite (Hfree a b E Hb). reflexivity.
  - rewrite startswith_app, skipn_app_length, firstn_app_length. exact Hr.
Qed.

(** A lazy run followed by an optional group and a literal, when the
    group is found first. *)
Lemma lazy_to_group (l1 l2 pre rest : str) (G R : regex) caps K (r : A) :
  early_free l1 pre (l1 ++ rest) ->
  early_free l2 pre (l1 ++ rest) ->
  exec G rest caps (fun s' caps' => exec (RSeq (RLit l2) R) s' caps' K) = Some r ->
  exec (RSeq (RLazy any_char)
             (RSeq (ROpt (RSeq (RLit l1) G)) (RSeq (RLit l2) R)))
       (pre ++ l1 ++ rest) caps K
  = Some r.
Proof.
  intros H1 H2 Hr. cbn [exec].
  apply star_lazy_to.
  - intros a b E Hb. rewrite (H1 a b E Hb), (H2 a b E Hb). reflexivity.
  - rewrite startswith_app, skipn_app_length.
    cbn [exec] in Hr. rewrite Hr. reflexivity.
Qed.

(** The same when the literal is found first and the group is absent. *)
Lemma lazy_past_group (l1 l2 pre rest : str) (G R : regex) caps K (r : A) :
  early_free l1 pre (l2 ++ rest) ->
  early_free l2 pre (l2 ++ rest) ->
  startswith l1 (l2 ++ rest) = false ->
  exec R rest caps K = Some r ->
  exec (RSeq (RLazy any_char)
             (RSeq (ROpt (RSeq (RLit l1) G)) (RSeq (RLit l2) R)))
       (pre ++ l2 ++ rest) caps K
  = Some r.
Proof.
  intros H1 H2 H3 Hr. cbn [exec].
  apply star_lazy_to.
  - intros a b E Hb. rewrite (H1 a b E Hb), (H2 a b E Hb). reflexivity.
  - rewrite H3, startswith_app, skipn_app_length. exact Hr.
Qed.

End Matching.

Lemma exec_seq_lit (A : Type) (l s : str) (R : regex) caps
    (K : str -> captures -> option A) :
  exec (RSeq (RLit l) R) (l ++ s) caps K = exec R s caps K.
Proof. cbn [exec]. rewrite startswith_app, skipn_app_length. reflexivity. Qed.

(** A lazy run that ends a group, the literal being the first thing the
    rest of the pattern asks for. *)
Lemma lazy_to_cont (A : Type) (l pre rest : str) (R : regex) caps
    (K : str -> captures -> option A) (r : A) :
  early_free l pre (l ++ rest) ->
  exec R rest caps K = Some r ->
  exec (RLazy any_char) (pre ++ l ++ rest) caps
       (fun s' caps' => exec (RSeq (RLit l) R) s' caps' K)
  = Some r.
Proof.
  intros Hfree Hr. cbn [exec].
  apply star_lazy_to.
  - intros a b E Hb. rewrite (Hfree a b E Hb). reflexivity.
  - rewrite startswith_app, skipn_app_length. exact Hr.
Qed.

Lemma closing_tag_free (l f rest : str) :
  match l with
  | c :: l' => negb (existsb (N.eqb c) l')
  | [] => false
  end = true ->
  contains l f = false ->
  early_free l f (l ++ rest).
Proof.
  destruct l as [|c l']; [discriminate|]. intros H Hf.
  apply field_early_free; [|exact Hf].
  apply negb_true_iff. exact H.
Qed.

Lemma ms_truncated_fixed (t : str) : ms_truncated t = true -> truncate_time t = t.
Proof.
  unfold ms_truncated, truncate_time. intro H.
  destruct (existsb (N.eqb 46) t); [|reflexivity].
  simpl in H. apply Nat.leb_le in H.
  destruct (Nat.ltb_spec 3 (List.length (nth 1 (split 46%N t) []))); [lia|].
  reflexivity.
Qed.

Lemma valid_chapter_parts (c : MKVChapter) :
  valid_chapter c = true ->
  contains (lit "</ChapterUID>") (uid c) = false
  /\ contains (lit "</ChapterTimeStart>") (start_time c) = false
  /\ ms_truncated (start_time c) = true
  /\ match end_time c with
     | None => True
     | Some [] => False
     | Some e => contains (lit "</ChapterTimeEnd>") e = false
                 /\ ms_truncated e = true
     end
  /\ contains (lit "</ChapterString>") (title c) = false.
Proof.
  unfold valid_chapter. intro H.
  apply andb_true_iff in H as [H Ht]. apply andb_true_iff in H as [H He].
  apply andb_true_iff in H as [H Hms]. apply andb_true_iff in H as [Hu Hs].
  apply negb_true_iff in Hu, Hs, Ht.
  repeat split; try assumption.
  destruct (end_time c) as [[|x e]|]; [discriminate | | exact I].
  apply andb_true_iff in He as [H1 H2].
  split; [apply negb_true_iff; exact H1 | exact H2].
Qed.

(** One anchored match on the text of a valid chapter: the four groups
    are the four fields, and the match ends right after
    [</ChapterString>]. *)
Lemma match_atom (c : MKVChapter) (rest : str) :
  valid_chapter c = true ->
  match_here chapter_pattern (atom_text c rest) = Some (atom_groups c, rest).
Proof.
  intro V. destruct (valid_chapter_parts c V) as (Vu & Vs & _ & Ve & Vt).
  unfold match_here, chapter_pattern, atom_text, atom_groups. cbn [sequence].
  rewrite exec_seq_lit.
  apply lazy_to; [apply mismatch_all_early_free; reflexivity|].
  apply group_to; [apply closing_tag_free; [reflexivity | exact Vu]|].
  apply lazy_to; [apply mismatch_all_early_free; reflexivity|].
  apply group_to; [apply closing_tag_free; [reflexivity | exact Vs]|].
  destruct (end_time c) as [[|x e]|]; [contradiction | |].
  - destruct Ve as [Ve _].
    apply lazy_to_group;
      [apply mismatch_all_early_free; reflexivity
      |apply mismatch_all_early_free; reflexivity|].
    apply group_to; [apply closing_tag_free; [reflexivity | exact Ve]|].
    apply lazy_to_cont; [apply mismatch_all_early_free; reflexivity|].
    apply lazy_to; [apply mismatch_all_early_free; reflexivity|].
    apply group_to_end; [apply closing_tag_free; [reflexivity | exact Vt]|].
    reflexivity.
  - apply lazy_past_group;
      [apply mismatch_all_early_free; reflexivity
      |apply mismatch_all_early_free; reflexivity
      |apply mismatch_startswith; reflexivity|].
    apply lazy_to; [apply mismatch_all_early_free; reflexivity|].
    apply group_to_end; [apply closing_tag_free; [reflexivity | exact Vt]|].
    reflexivity.
Qed.

Lemma chapter_of_atom_groups (c : MKVChapter) :
  valid_chapter c = true -> chapter_of_match (atom_groups c) = c.
Proof.
  intro V. destruct (valid_chapter_parts c V) as (_ & _ & Ts & Ve & _).
  destruct c as [u st e t]. cbn [uid start_time end_time title] in *.
  unfold chapter_of_match, atom_groups, group_text.
  destruct e as [[|x e]|]; [contradiction | |]; cbn -[truncate_time].
  - destruct Ve as [_ Te].
    rewrite (ms_truncated_fixed _ Ts), (ms_truncated_fixed _ Te). reflexivity.
  - rewrite (ms_truncated_fixed _ Ts). reflexivity.
Qed.

Section Scanning.

Variable r : regex.

Lemma finditer_from_fuel (n : nat) :
  forall (s : str) (f1 f2 : nat),
    (List.length s <= n)%nat ->
    (List.length s < f1)%nat -> (List.length s < f2)%nat ->
    finditer_from f1 r s = finditer_from f2 r s.
Proof.
  induction n as [|n IH]; intros s f1 f2 Hn H1 H2;
    destruct f1 as [|f1]; try lia; destruct f2 as [|f2]; try lia; simpl.
  - destruct s; [|simpl in Hn; lia].
    destruct (match_here r []) as [[caps rest]|]; reflexivity.
  - destruct (match_here r s) as [[caps rest]|].
    + destruct (Nat.ltb_spec (List.length rest) (List.length s)).
      * f_equal. apply IH; lia.
      * destruct s as [|c t]; [reflexivity|].
        f_equal. simpl in *. apply IH; lia.
    + destruct s as [|c t]; [reflexivity|].
      simpl in *. apply IH; lia.
Qed.

(** [finditer] unrolled once. *)
Lemma finditer_step (s : str) :
  finditer r s =
  match match_here r s with
  | Some (caps, rest) =>
      if Nat.ltb (List.length rest) (List.length s)
      then caps :: finditer r rest
      else match s with
           | [] => [caps]
           | _ :: t => caps :: finditer r t
           end
  | None =>
      match s with
      | [] => []
      | _ :: t => finditer r t
      end
  end.
Proof.
  unfold finditer at 1. cbn [finditer_from].
  destruct (match_here r s) as [[caps rest]|].
  - destruct (Nat.ltb_spec (List.length rest) (List.length s)).
    + f_equal. unfold finditer.
      apply (@finditer_from_fuel (List.length rest)); lia.
    + destruct s as [|c t]; reflexivity.
  - destruct s as [|c t]; reflexivity.
Qed.

(** Positions where no match starts are passed over. *)
Lemma finditer_skip (pre s : str) :
  (forall a b, pre = a ++ b -> b <> [] -> match_here r (b ++ s) = None) ->
  finditer r (pre ++ s) = finditer r s.
Proof.
  induction pre as [|x pre IH]; intro H; [reflexivity|].
  rewrite finditer_step.
  rewrite (H [] (x :: pre) eq_refl) by discriminate.
  cbn [app]. apply IH.
  intros a b E Hb. apply (H (x :: a) b); [simpl; congruence | exact Hb].
Qed.

End Scanning.

Lemma no_atom_no_match (s : str) :
  startswith (lit "<ChapterAtom>") s = false ->
  match_here chapter_pattern s = None.
Proof.
  intro H. unfold match_here, chapter_pattern. cbn [sequence].
  cbn [exec]. rewrite H. reflexivity.
Qed.

Lemma finditer_skip_text (pre s : str) :
  mismatch_all (lit "<ChapterAtom>") pre = true ->
  finditer chapter_pattern (pre ++ s) = finditer chapter_pattern s.
Proof.
  intro H. apply finditer_skip. intros a b E Hb.
  apply no_atom_no_match.
  exact (@mismatch_all_early_free _ _ s H a b E Hb).
Qed.

Lemma atom_text_longer (c : MKVChapter) (rest : str) :
  (List.length rest < List.length (atom_text c rest))%nat.
Proof.
  unfold atom_text. rewrite length_app.
  change (List.length (lit "<ChapterAtom>")) with 13%nat.
  repeat rewrite length_app.
  destruct (end_time c) as [[|x e]|]; repeat rewrite length_app; lia.
Qed.

Lemma join_app_lines (sep : str) (l1 l2 : list str) :
  l2 <> [] ->
  join sep (l1 ++ l2) = flat_map (fun p => p ++ sep) l1 ++ join sep l2.
Proof.
  intro H. induction l1 as [|p l1 IH]; [reflexivity|].
  cbn [app flat_map].
  destruct (l1 ++ l2) as [|q l] eqn:E; [apply app_eq_nil in E; tauto|].
  change (join sep (p :: q :: l)) with (p ++ sep ++ join sep (q :: l)).
  rewrite IH, <- !app_assoc. reflexivity.
Qed.

Lemma chapter_lines_text (c : MKVChapter) (rest : str) :
  flat_map (fun p => p ++ [10%N]) (chapter_lines c) ++ rest
  = lit "    " ++ atom_text c (atom_tail ++ rest).
Proof.
  unfold chapter_lines, atom_text, atom_tail, W6, W8.
  destruct (end_time c) as [[|x e]|]; cbn [flat_map app];
    repeat (rewrite <- app_assoc || rewrite <- app_comm_cons); reflexivity.
Qed.

Lemma generate_body (cs : list MKVChapter) :
  join [10%N] (flat_map chapter_lines cs ++ xml_footer) = xml_body cs.
Proof.
  induction cs as [|c cs IH]; [reflexivity|].
  cbn [flat_map xml_body]. rewrite <- app_assoc.
  rewrite join_app_lines.
  - rewrite IH. apply chapter_lines_text.
  - intro E. apply app_eq_nil in E. destruct E as [_ E]. discriminate E.
Qed.

Lemma generate_shape (cs : list MKVChapter) :
  _generate_chapter_xml cs = xml_head ++ xml_body cs.
Proof.
  unfold _generate_chapter_xml, xml_head.
  rewrite join_app_lines.
  - rewrite generate_body. reflexivity.
  - intro E. apply app_eq_nil in E. destruct E as [_ E]. discriminate E.
Qed.

Lemma parse_body (cs : list MKVChapter) :
  forallb valid_chapter cs = true ->
  map chapter_of_match (finditer chapter_pattern (xml_body cs)) = cs.
Proof.
  induction cs as [|c cs IH]; intro V.
  - vm_compute. reflexivity.
  - cbn [forallb] in V. apply andb_true_iff in V as [Vc Vcs].
    cbn [xml_body].
    rewrite finditer_skip_text by reflexivity.
    rewrite finditer_step, (match_atom c _ Vc).
    pose proof (atom_text_longer c (atom_tail ++ xml_body cs)) as L.
    apply Nat.ltb_lt in L. rewrite L.
    rewrite finditer_skip_text by reflexivity.
    cbn [map]. rewrite (IH Vcs), (chapter_of_atom_groups c Vc). reflexivity.
Qed.

(** C1, as stated, fails: a title is free text, and one that holds the
    closing tag of its element is cut at that tag. *)
Lemma title_with_closing_tag_cut :
  let c := mkChapter (lit "1") (lit "00:00:00.000") None
                     (lit "x</ChapterString>y") in
  _parse_chapter_xml (_generate_chapter_xml [c])
  = [mkChapter (lit "1") (lit "00:00:00.000") None (lit "x")]
  /\ _parse_chapter_xml (_generate_chapter_xml [c]) <> [c].
Proof. split; [vm_compute; reflexivity | vm_compute; discriminate]. Qed.

(** C1, amended.  For every sequence of chapters in which no field
    holds the closing tag of its own element, both times are already cut
    to milliseconds and an end time, when present, is not empty,
    decoding the document produced by encoding gives the sequence back:
    the same chapters in the same order, with identical uid, start
    time, end time (an absent one staying absent) and title. *)
Theorem parse_generate_roundtrip :
  forall cs : list MKVChapter,
    forallb valid_chapter cs = true ->
    _parse_chapter_xml (_generate_chapter_xml cs) = cs.
Proof.
  intros cs V. unfold _parse_chapter_xml.
  rewrite generate_shape.
  rewrite finditer_skip_text by reflexivity.
  apply parse_body. exact V.
Qed.

(** Two chapters, one with an end time, one whose title holds markup
    characters. *)
Lemma parse_generate_roundtrip_witness :
  let cs := [ mkChapter (lit "11") (lit "00:00:00.000")
                        (Some (lit "00:03:00.5")) (lit "Intro");
              mkChapter (lit "12") (lit "00:03:00.500") None
                        (lit "a < b & <c>") ] in
  _parse_chapter_xml (_generate_chapter_xml cs) = cs.
Proof.
  intro cs. apply (@parse_generate_roundtrip cs). reflexivity.
Defined.

(** ** More on the pipeline *)

Lemma chapter_step_marks w cfg template i c r :
  chapter_step w cfg template i c = Ok r -> same_marks c (fst r).
Proof.
  intro H. destruct (recognition_of w cfg i c) as [song|] eqn:E.
  - destruct (@chapter_step_recognised _ _ _ _ _ _ _ H E) as (t & _ & ->).
    repeat split.
  - rewrite (@chapter_step_unrecognised _ _ _ _ _ _ H E). repeat split.
Qed.

Lemma chapter_steps_marks w cfg template chapters :
  forall i chapters' n,
    chapter_steps w cfg template i chapters = Ok (chapters', n) ->
    Forall2 same_marks chapters chapters'.
Proof.
  induction chapters as [|c rest IH]; intros i chapters' n H; simpl in H.
  - injection H as <- <-. constructor.
  - destruct (chapter_step w cfg template i c) as [r|e] eqn:Er; [|discriminate].
    cbn [bind] in H.
    destruct (chapter_steps w cfg template (S i) rest) as [[cs m]|e] eqn:Es;
      [|discriminate].
    cbn [bind fst snd] in H. injection H as <- <-.
    constructor; [exact (chapter_step_marks _ _ _ _ _ Er) | exact (IH _ _ _ Es)].
Qed.

Lemma same_marks_maps chapters chapters' :
  Forall2 same_marks chapters chapters' ->
  map uid chapters' = map uid chapters
  /\ map start_time chapters' = map start_time chapters
  /\ map end_time chapters' = map end_time chapters.
Proof.
  induction 1 as [|a b l l' (Hu & Hs & He) _ (IHu & IHs & IHe)]; simpl.
  - repeat split.
  - rewrite IHu, IHs, IHe, Hu, Hs, He. repeat split.
Qed.

(** The three shapes a run can take. *)
Lemma process_cases w cfg template output_file backup :
  let chapters := _parse_chapter_xml (snd (run_mkvextract w)) in
  let run := process w cfg template output_file backup in
  (write_invoked (fst run) = false /\ exists e, snd run = Raise e)
  \/ (exists chapters',
        Forall2 same_marks chapters chapters'
        /\ write_invoked (fst run) = false /\ snd run = Ok chapters')
  \/ (exists chapters' log1,
        Forall2 same_marks chapters chapters'
        /\ write_invoked log1 = false
        /\ fst run = log1 ++ [EvMkvpropedit output_file
                                (_generate_chapter_xml chapters')]
        /\ snd run = (if negb (run_mkvpropedit w (_generate_chapter_xml chapters')
                               =? 0)%Z
                      then Raise RuntimeError else Ok chapters')).
Proof.
  intros chapters run.
  destruct (Z.eq_dec (fst (run_mkvextract w)) 0) as [Hrc|Hrc].
  2:{ left. unfold run. rewrite (@process_extract_failed _ _ _ _ _ Hrc).
      split; [reflexivity | eexists; reflexivity]. }
  destruct (@process_run w cfg template output_file backup Hrc)
    as (log0 & W1 & E).
  fold chapters in E, W1. fold run in E.
  set (log1 := log0 ++ fst (process_chapters w cfg template 0 chapters [])) in *.
  destruct (chapter_steps w cfg template 0 chapters) as [[cs n]|e] eqn:Es.
  - pose proof (@chapter_steps_marks _ _ _ _ _ _ _ Es) as F.
    destruct (0 <? n)%Z.
    + right. right. exists cs, log1. rewrite E. repeat split; assumption.
    + right. left. exists cs. rewrite E. repeat split; assumption.
  - left. rewrite E. split; [exact W1 | eexists; reflexivity].
Qed.

Lemma recognize_song_probes w i samples :
  forallb is_probe (fst (recognize_song w i samples [])) = true.
Proof.
  unfold recognize_song, generate_fingerprint, mbind, emit, lift, raise.
  destruct (Z.of_nat (List.length samples) =? SAMPLECOUNT)%Z; [|reflexivity].
  simpl. destruct (GenerateFP w i samples) as [fp|e]; [|reflexivity].
  simpl. destruct (GetMatchTrackByFP w i fp DURATION) as [r|e]; [|reflexivity].
  simpl. destruct (song_of_response r); reflexivity.
Qed.

Lemma process_chapter_probes w cfg template i chapter :
  forallb is_probe (fst (process_chapter w cfg template i chapter [])) = true.
Proof.
  unfold process_chapter.
  destruct (chapter_sample_start cfg chapter) as [t|e]; [|reflexivity].
  unfold mbind, lift, extract_audio_sample. unfold mbind, emit, ret.
  cbn [app bind].
  destruct (samples_of_output (run_ffmpeg w i t 3)) as [samples|];
    [|reflexivity].
  pose proof (appends_recognize_song w i samples [EvFfmpeg i t 3]) as Ha.
  pose proof (recognize_song_probes w i samples) as Hq.
  rewrite Ha.
  destruct (recognize_song w i samples []) as [l0 [[[|kv rest]|]|e]];
    cbn [fst snd] in *; try exact Hq.
  destruct (ChapterTemplate_format template (kv :: rest)); exact Hq.
Qed.

Lemma process_chapters_probes w cfg template chapters :
  forall i,
    forallb is_probe (fst (process_chapters w cfg template i chapters [])) = true.
Proof.
  induction chapters as [|c rest IH]; intro i; simpl; [reflexivity|].
  rewrite bind_nil;
    [|apply appends_process_chapter
     |intro r; apply appends_bind;
      [apply appends_process_chapters | intro; apply appends_ret]].
  pose proof (process_chapter_probes w cfg template i c) as Hp.
  destruct (snd (process_chapter w cfg template i c [])) as [r|e];
    [|exact Hp].
  rewrite bind_nil;
    [|apply appends_process_chapters | intro; apply appends_ret].
  pose proof (IH (S i)) as Hq.
  destruct (snd (process_chapters w cfg template (S i) rest [])) as [rs|e];
    cbn [fst snd ret]; rewrite ?forallb_app, ?app_nil_r, Hp, ?Hq; reflexivity.
Qed.

(** The log of a run whose extraction succeeded and found chapters. *)
Lemma process_log w cfg template output_file backup :
  fst (run_mkvextract w) = 0%Z ->
  let chapters := _parse_chapter_xml (snd (run_mkvextract w)) in
  chapters <> [] ->
  let run := process w cfg template output_file backup in
  let probes := fst (process_chapters w cfg template 0 chapters []) in
  exists tail,
    fst run = preamble backup chapters ++ probes ++ tail
    /\ (tail = []
        \/ exists chapters',
             Forall2 same_marks chapters chapters'
             /\ tail = [EvMkvpropedit output_file
                          (_generate_chapter_xml chapters')]).
Proof.
  intros Hrc chapters Hne run. cbv zeta. unfold run, process, extract_chapters.
  unfold mbind at 1. unfold mbind at 1. unfold emit at 1. cbn [app].
  destruct (run_mkvextract w) as [rc xml] eqn:Ew. cbn [fst snd] in *. subst rc.
  cbn [Z.eqb negb]. unfold ret at 1.
  fold chapters. unfold process_extracted.
  destruct chapters as [|c0 rest] eqn:Ec; [congruence|].
  rewrite <- Ec in *. clear Ec.
  set (pre := if backup then _backup_chapters chapters else ret tt).
  assert (Hpre : pre [EvMkvextract] = (preamble backup chapters, Ok tt)).
  { unfold pre, preamble. destruct backup; reflexivity. }
  unfold mbind at 1. rewrite Hpre.
  unfold mbind at 1.
  rewrite (appends_process_chapters w cfg template chapters 0
             (preamble backup chapters)).
  destruct (process_chapters_nil w cfg template chapters 0) as [Hs _].
  destruct (snd (process_chapters w cfg template 0 chapters []))
    as [[chapters' n]|e] eqn:Er.
  2:{ exists []. rewrite app_nil_r. split; [reflexivity | left; reflexivity]. }
  symmetry in Hs.
  pose proof (@chapter_steps_marks _ _ _ _ _ _ _ Hs) as F.
  destruct (0 <? n)%Z.
  - exists [EvMkvpropedit output_file (_generate_chapter_xml chapters')].
    split; [|right; exists chapters'; split; [exact F | reflexivity]].
    unfold update_chapters, mbind, emit, ret, raise.
    destruct (negb (run_mkvpropedit w (_generate_chapter_xml chapters') =? 0)%Z);
      cbn [fst]; rewrite <- app_assoc; reflexivity.
  - exists []. rewrite app_nil_r. split; [reflexivity | left; reflexivity].
Qed.

Lemma probes_no_write l : forallb is_probe l = true -> write_invoked l = false.
Proof.
  induction l as [|e l IH]; simpl; [reflexivity|].
  intro H. apply andb_true_iff in H. destruct H as [He Hl].
  rewrite (IH Hl). destruct e; try discriminate He; reflexivity.
Qed.

Lemma probes_no_backup l : forallb is_probe l = true -> existsb is_backup l = false.
Proof.
  induction l as [|e l IH]; simpl; [reflexivity|].
  intro H. apply andb_true_iff in H. destruct H as [He Hl].
  rewrite (IH Hl). destruct e; try discriminate He; reflexivity.
Qed.

(** A write that closes a log without earlier writes is the only one. *)
Lemma last_write log1 :
  forall l1 e l2 x,
    write_invoked log1 = false -> is_write e = true ->
    l1 ++ e :: l2 = log1 ++ [x] ->
    l1 = log1 /\ e = x /\ l2 = [].
Proof.
  induction log1 as [|a log1 IH]; intros l1 e l2 x Hw He Heq.
  - destruct l1 as [|y l1]; simpl in Heq.
    + injection Heq as -> <-. repeat split.
    + injection Heq as _ Heq. destruct l1; discriminate Heq.
  - simpl in Hw. apply orb_false_iff in Hw. destruct Hw as [Ha Hw].
    destruct l1 as [|y l1]; simpl in Heq.
    + injection Heq as -> _. congruence.
    + injection Heq as -> Heq.
      destruct (IH _ _ _ _ Hw He Heq) as (-> & -> & ->). repeat split.
Qed.

(** X1.  A run that finds nothing to work on stops after the chapter
    extraction: when mkvextract fails the run raises [RuntimeError],
    and when the extracted document holds no chapter the run returns
    the empty list; in both cases mkvextract is the only external call,
    and no backup is taken even when one was asked for. *)
Theorem process_without_chapters :
  forall (w : world) (cfg : RecognitionConfig) (template : str)
         (output_file : option str) (backup : bool),
    fst (run_mkvextract w) <> 0%Z
    \/ _parse_chapter_xml (snd (run_mkvextract w)) = [] ->
    let run := process w cfg template output_file backup in
    fst run = [EvMkvextract]
    /\ snd run = if (fst (run_mkvextract w) =? 0)%Z
                 then Ok [] else Raise RuntimeError.
Proof.
  intros w cfg template output_file backup H run. unfold run.
  destruct (Z.eqb_spec (fst (run_mkvextract w)) 0) as [Hrc|Hrc].
  - destruct H as [H|H]; [contradiction|].
    unfold process, extract_chapters, mbind, emit. cbn [app].
    destruct (run_mkvextract w) as [rc xml]. cbn [fst snd] in *. subst rc.
    cbn [Z.eqb negb]. unfold ret at 1. rewrite H. split; reflexivity.
  - rewrite (@process_extract_failed _ _ _ _ _ Hrc). split; reflexivity.
Qed.

Lemma process_without_chapters_witness :
  let w := example_world (lit "<Chapters></Chapters>") [] no_match_response in
  let run := process w default_config default_template None true in
  fst run = [EvMkvextract] /\ snd run = Ok [].
Proof.
  apply (@process_without_chapters
           (example_world (lit "<Chapters></Chapters>") [] no_match_response)
           default_config default_template None true).
  right. vm_compute. reflexivity.
Defined.

(** X2.  The chapters a run returns are the extracted ones with, at
    most, other titles: the list has the same length and order, and
    every UID, start time and end time is the one that was extracted. *)
Theorem process_changes_titles_only :
  forall (w : world) (cfg : RecognitionConfig) (template : str)
         (output_file : option str) (backup : bool)
         (chapters' : list MKVChapter),
    snd (process w cfg template output_file backup) = Ok chapters' ->
    Forall2 same_marks (_parse_chapter_xml (snd (run_mkvextract w))) chapters'.
Proof.
  intros w cfg template output_file backup chapters' H.
  destruct (process_cases w cfg template output_file backup)
    as [(_ & e & He) | [(cs & F & _ & Hc) | (cs & log1 & F & _ & _ & Hc)]].
  - congruence.
  - rewrite Hc in H. injection H as <-. exact F.
  - rewrite Hc in H.
    destruct (negb (run_mkvpropedit w (_generate_chapter_xml cs) =? 0)%Z);
      [discriminate H|]. injection H as <-. exact F.
Qed.

Lemma process_changes_titles_only_witness :
  Forall2 same_marks
    (_parse_chapter_xml (snd (run_mkvextract five_world)))
    (match snd (process five_world default_config default_template None true)
     with Ok chapters' => chapters' | Raise _ => [] end).
Proof.
  apply (@process_changes_titles_only five_world default_config
           default_template None true).
  vm_compute. reflexivity.
Defined.

(** X3.  A run calls the metadata-write tool at most once, and only as
    its last external call; the document handed to it encodes the
    extracted chapters with, at most, other titles, and the target is
    the output file the caller named. *)
Theorem process_write_is_last :
  forall (w : world) (cfg : RecognitionConfig) (template : str)
         (output_file : option str) (backup : bool)
         (before : list event) (e : event) (after : list event),
    fst (process w cfg template output_file backup) = before ++ e :: after ->
    is_write e = true ->
    after = []
    /\ write_invoked before = false
    /\ exists chapters',
         Forall2 same_marks (_parse_chapter_xml (snd (run_mkvextract w)))
                 chapters'
         /\ e = EvMkvpropedit output_file (_generate_chapter_xml chapters').
Proof.
  intros w cfg template output_file backup before e after Hlog He.
  assert (Hw : write_invoked (before ++ e :: after) = true).
  { unfold write_invoked. rewrite existsb_app. simpl. rewrite He.
    apply orb_true_r. }
  destruct (process_cases w cfg template output_file backup)
    as [(W & _) | [(cs & _ & W & _) | (cs & log1 & F & W & Hl & _)]].
  - rewrite Hlog in W. congruence.
  - rewrite Hlog in W. congruence.
  - rewrite Hlog in Hl.
    destruct (@last_write _ _ _ _ _ W He Hl) as (-> & -> & ->).
    split; [reflexivity|]. split; [exact W|].
    exists cs. split; [exact F | reflexivity].
Qed.

Lemma process_write_is_last_witness :
  exists before e,
    fst (process recognised_world default_config default_template None true)
    = before ++ [e]
    /\ write_invoked before = false
    /\ e = EvMkvpropedit None (_generate_chapter_xml [recognised_chapter]).
Proof.
  pose (run := process recognised_world default_config default_template
                       None true).
  exists (removelast (fst run)), (last (fst run) EvMkvextract).
  assert (Hlog : fst run = removelast (fst run)
                           ++ last (fst run) EvMkvextract :: [])
    by (vm_compute; reflexivity).
  destruct (@process_write_is_last recognised_world default_config
              default_template None true _ _ _ Hlog)
    as (_ & W & _); [vm_compute; reflexivity|].
  split; [exact Hlog|]. split; [exact W|]. vm_compute. reflexivity.
Defined.

(** X4.  When a backup is asked for and chapters were extracted, the
    snapshot is taken right after the extraction, before any audio is
    read or any title changes, and it holds the chapters exactly as
    extracted; nothing else in the run takes a snapshot.  Without the
    backup flag no snapshot is taken at all. *)
Theorem backup_precedes_recognition :
  forall (w : world) (cfg : RecognitionConfig) (template : str)
         (output_file : option str) (backup : bool),
    fst (run_mkvextract w) = 0%Z ->
    let chapters := _parse_chapter_xml (snd (run_mkvextract w)) in
    chapters <> [] ->
    exists rest,
      existsb is_backup rest = false
      /\ fst (process w cfg template output_file backup)
         = if backup then EvMkvextract :: EvBackup chapters :: rest
           else EvMkvextract :: rest.
Proof.
  intros w cfg template output_file backup Hrc chapters Hne.
  destruct (@process_log w cfg template output_file backup Hrc Hne)
    as (tail & Hl & Ht).
  fold chapters in Hl, Ht.
  exists (fst (process_chapters w cfg template 0 chapters []) ++ tail).
  split.
  - rewrite existsb_app.
    rewrite (@probes_no_backup _ (process_chapters_probes w cfg template chapters 0)).
    destruct Ht as [->|(cs & _ & ->)]; reflexivity.
  - rewrite Hl. unfold preamble. destruct backup; reflexivity.
Qed.

Lemma backup_precedes_recognition_witness :
  exists rest,
    existsb is_backup rest = false
    /\ fst (process five_world default_config default_template None true)
       = EvMkvextract
         :: EvBackup (_parse_chapter_xml (snd (run_mkvextract five_world)))
         :: rest.
Proof.
  apply (@backup_precedes_recognition five_world default_config
           default_template None true).
  - reflexivity.
  - vm_compute. discriminate.
Defined.






(** ** More on recognition *)


Lemma recognize_song_cases w i samples log :
  exists l v,
    recognize_song w i samples log = (log ++ l, Ok v)
    /\ (l = [] /\ v = None
        \/ l = [EvGenerateFP i] /\ v = None
        \/ l = [EvGenerateFP i; EvGetMatch i]
           /\ Z.of_nat (List.length samples) = SAMPLECOUNT
           /\ exists fp, GenerateFP w i samples = Ok fp
                /\ (v = None
                    \/ exists r, GetMatchTrackByFP w i fp DURATION = Ok r
                                 /\ song_of_response r = Ok v)).
Proof.
  unfold recognize_song, generate_fingerprint, mbind, emit, lift, raise.
  destruct (Z.eqb_spec (Z.of_nat (List.length samples)) SAMPLECOUNT) as [Hn|Hn].
  2:{ exists [], None. rewrite app_nil_r. split; [reflexivity|].
      left. split; reflexivity. }
  destruct (GenerateFP w i samples) as [fp|x] eqn:Ef.
  2:{ exists [EvGenerateFP i], None. split; [reflexivity|].
      right. left. split; reflexivity. }
  exists [EvGenerateFP i; EvGetMatch i].
  destruct (GetMatchTrackByFP w i fp DURATION) as [r|x] eqn:Eg.
  2:{ exists None. rewrite <- app_assoc. split; [reflexivity|].
      right. right. repeat split; try assumption.
      exists fp. split; [reflexivity | left; reflexivity]. }
  destruct (song_of_response r) as [v|x] eqn:Es.
  - exists v. rewrite <- app_assoc. split; [reflexivity|].
    right. right. repeat split; try assumption.
    exists fp. split; [reflexivity|]. right. exists r. split; assumption.
  - exists None. rewrite <- app_assoc. split; [reflexivity|].
    right. right. repeat split; try assumption.
    exists fp. split; [reflexivity | left; reflexivity].
Qed.

(** X6.  [recognize_song] never raises.  It calls the fingerprint
    generator at most once and only for exactly [SAMPLECOUNT] samples,
    consults the catalogue at most once and only after the generator
    returned a fingerprint, and returns a song only when both calls
    succeeded and the answer held one; in every other case (wrong
    sample count, generator or catalogue error, malformed or empty
    answer) it returns [None]. *)
Theorem recognize_song_contained :
  forall (w : world) (i : nat) (samples : list N) (log : list event),
  exists calls v,
    recognize_song w i samples log = (log ++ calls, Ok v)
    /\ (calls = [] \/ calls = [EvGenerateFP i]
        \/ calls = [EvGenerateFP i; EvGetMatch i])
    /\ (Z.of_nat (List.length samples) <> SAMPLECOUNT -> calls = [] /\ v = None)
    /\ (is_ok (GenerateFP w i samples) = false ->
        ~ In (EvGetMatch i) calls /\ v = None)
    /\ (v <> None ->
        calls = [EvGenerateFP i; EvGetMatch i]
        /\ exists fp r,
             GenerateFP w i samples = Ok fp
             /\ GetMatchTrackByFP w i fp DURATION = Ok r
             /\ song_of_response r = Ok v).
Proof.
  intros w i samples log.
  destruct (recognize_song_cases w i samples log) as (l & v & E & C).
  exists l, v. split; [exact E|].
  destruct C as [(-> & ->) | [(-> & ->) | (-> & Hn & fp & Ef & Hv)]].
  - split; [left; reflexivity|]. split; [intros _; split; reflexivity|].
    split; [intros _; split; [intros [] | reflexivity]|].
    intro H. congruence.
  - split; [right; left; reflexivity|].
    assert (Hlen : Z.of_nat (List.length samples) = SAMPLECOUNT).
    { unfold recognize_song, generate_fingerprint, mbind, emit, lift, raise in E.
      destruct (Z.eqb_spec (Z.of_nat (List.length samples)) SAMPLECOUNT)
        as [Hn|Hn]; [exact Hn|].
      injection E as E. apply (f_equal (@List.length event)) in E.
      rewrite length_app in E. simpl in E. lia. }
    split; [intro H; contradiction|].
    split; [intros _; split; [intros [H|[]]; discriminate H | reflexivity]|].
    intro H. congruence.
  - split; [right; right; reflexivity|].
    split; [intro H; contradiction|].
    split; [rewrite Ef; discriminate|].
    intro H. split; [reflexivity|].
    destruct Hv as [->|(r & Eg & Es)]; [congruence|].
    exists fp, r. repeat split; assumption.
Qed.




(** ** The recognition subprocess and batch mode *)

(** X8.  The recognition subprocess cannot succeed with a duration
    below three seconds: when ffmpeg delivers no more than the
    [SAMPLERATE * duration * 4] bytes asked for, the worker reports
    that extracting the audio samples failed, and neither the
    fingerprint generator nor the catalogue is called. *)
Theorem worker_short_duration_fails :
  forall (w : world) (i : nat) (start : Q) (d : Z),
    (d < DURATION)%Z ->
    (Z.of_nat (List.length (snd (run_ffmpeg w i start d)))
     <= SAMPLERATE * d * 4)%Z ->
    worker_main true w i start d
    = ([EvFfmpeg i start d],
       Failure (ErrorText (lit "Failed to extract audio samples"))).
Proof.
  intros w i start d Hd Hlen.
  unfold worker_main, AFPInstance_init, extract_audio_sample.
  unfold mbind, lift, emit, ret. cbn [app].
  assert (Hs : samples_of_output (run_ffmpeg w i start d) = None).
  { destruct (run_ffmpeg w i start d) as [rc buffer]. cbn [snd] in Hlen.
    unfold samples_of_output.
    destruct (rc =? 0)%Z; [|reflexivity].
    rewrite expected_size_value.
    unfold SAMPLERATE, DURATION in *.
    destruct (Z.ltb_spec (Z.of_nat (List.length buffer)) 96000);
      [reflexivity | lia]. }
  rewrite Hs. reflexivity.
Qed.

Lemma worker_short_duration_fails_witness :
  worker_main true (example_world [] [] no_match_response) 0 10 2
  = ([EvFfmpeg 0 10 2],
     Failure (ErrorText (lit "Failed to extract audio samples"))).
Proof.
  apply worker_short_duration_fails.
  - reflexivity.
  - vm_compute. discriminate.
Defined.

Lemma process_single_file_fails (mkv_file : mkv_entry) (log : list event) :
  process_single_file mkv_file log = (log, Ok false).
Proof. reflexivity. Qed.

Lemma process_files_fail (files : list mkv_entry) :
  forall stats log,
    process_files files stats log
    = (log, Ok (mkStats (total stats) (success stats)
                        (failed stats + Z.of_nat (List.length files))
                        (skipped stats))).
Proof.
  induction files as [|f rest IH]; intros stats log.
  - cbn [process_files List.length Z.of_nat]. unfold ret.
    rewrite Z.add_0_r. destruct stats; reflexivity.
  - cbn [process_files]. unfold mbind.
    rewrite process_single_file_fails. rewrite IH.
    cbn [total success failed skipped].
    replace (failed stats + 1 + Z.of_nat (List.length rest))%Z
      with (failed stats + Z.of_nat (List.length (f :: rest)))%Z;
      [reflexivity|].
    change (List.length (f :: rest)) with (S (List.length rest)). lia.
Qed.

(** X9.  In batch mode no file is ever processed: the constructor of
    the renamer is called with a keyword, [sample_offset], that it does
    not accept, the resulting [TypeError] is caught, and the file is
    counted as failed.  For a directory that holds files, a serial run
    invokes no external tool at all, leaves the success counter
    untouched, counts every file that was not skipped as failed, and
    keeps total = skipped + attempted. *)
Theorem batch_fails_every_file :
  forall (skip_existing : bool) (mkv_files : list mkv_entry) (stats : Stats)
         (log : list event),
    mkv_files <> [] ->
    let attempted :=
      Z.of_nat (List.length (filter (should_process skip_existing) mkv_files)) in
    process_directory skip_existing mkv_files stats log
    = (log,
       Ok (mkStats (Z.of_nat (List.length mkv_files))
                   (success stats)
                   (failed stats + attempted)
                   (Z.of_nat (List.length mkv_files) - attempted))).
Proof.
  intros skip_existing mkv_files stats log Hne. cbv zeta.
  unfold process_directory.
  destruct mkv_files as [|f0 files] eqn:Ef; [congruence|].
  rewrite <- Ef. clear Ef Hne.
  destruct (filter (should_process skip_existing) mkv_files) as [|g rest].
  - unfold ret. change (Z.of_nat (List.length (@nil mkv_entry))) with 0%Z.
    rewrite Z.add_0_r. reflexivity.
  - rewrite process_files_fail. reflexivity.
Qed.

Lemma batch_fails_every_file_witness :
  let fresh := mkEntry false (Ok tt) recognised_world in
  let done := mkEntry true (Ok tt) recognised_world in
  process_directory true [fresh; done; fresh] (mkStats 0 0 0 0) []
  = ([], Ok (mkStats 3 0 2 1)).
Proof.
  apply (@batch_fails_every_file true
           [mkEntry false (Ok tt) recognised_world;
            mkEntry true (Ok tt) recognised_world;
            mkEntry false (Ok tt) recognised_world]
           (mkStats 0 0 0 0) []).
  discriminate.
Defined.

(** ** More on configuration *)

Lemma str_eqb_eq (a b : str) : str_eqb a b = true -> a = b.
Proof.
  revert b. induction a as [|x a IH]; intros [|y b] H; simpl in H;
    try discriminate; [reflexivity|].
  apply andb_true_iff in H. destruct H as [Hx Ha].
  apply N.eqb_eq in Hx. rewrite Hx, (IH _ Ha). reflexivity.
Qed.

(** What each field of a successful merge is. *)
Lemma merge_fields (config : pyval) (args : Namespace) (m : pyval) :
  merge_config_with_args config args = Ok m ->
  exists mkv_file output template custom_template strategy offset percentage
         duration ffmpeg mkvextract mkvpropedit no_backup skip_check,
    m = merged_dict mkv_file output template custom_template strategy offset
                    percentage duration ffmpeg mkvextract mkvpropedit
                    no_backup skip_check
    /\ py_or (of_opt_str (arg_mkv_file args)) (get config (lit "mkv_file") PNone)
       = Ok mkv_file
    /\ py_or (of_opt_str (arg_output args)) (get config (lit "output") PNone)
       = Ok output
    /\ py_if (negb (str_eqb (arg_template args) (lit "default")))
             (PStr (arg_template args))
             (get config (lit "template") (PStr (lit "default")))
       = Ok template
    /\ get config (lit "custom_template") PNone = Ok custom_template
    /\ py_if (negb (str_eqb (arg_strategy args) (lit "start")))
             (PStr (arg_strategy args))
             (get2 config (lit "recognition") (lit "strategy")
                   (PStr (lit "start")))
       = Ok strategy
    /\ py_if (negb (Qeq_bool (arg_offset args) 5)) (PFloat (arg_offset args))
             (get2 config (lit "recognition") (lit "offset") (PFloat 5))
       = Ok offset
    /\ py_if (negb (Qeq_bool (arg_percentage args) (1 # 2)))
             (PFloat (arg_percentage args))
             (get2 config (lit "recognition") (lit "percentage")
                   (PFloat (1 # 2)))
       = Ok percentage
    /\ py_if (negb (arg_duration args =? 3)%Z) (PInt (arg_duration args))
             (get2 config (lit "recognition") (lit "duration") (PInt 3))
       = Ok duration
    /\ py_or (of_opt_str (arg_ffmpeg args))
             (get2 config (lit "tools") (lit "ffmpeg") PNone)
       = Ok ffmpeg
    /\ py_or (of_opt_str (arg_mkvextract args))
             (get2 config (lit "tools") (lit "mkvextract") PNone)
       = Ok mkvextract
    /\ py_or (of_opt_str (arg_mkvpropedit args))
             (get2 config (lit "tools") (lit "mkvpropedit") PNone)
       = Ok mkvpropedit
    /\ py_or (PBool (arg_no_backup args))
             (get2 config (lit "options") (lit "no_backup") (PBool false))
       = Ok no_backup
    /\ py_or (PBool (arg_skip_check args))
             (get2 config (lit "options") (lit "skip_check") (PBool false))
       = Ok skip_check.
Proof.
  unfold merge_config_with_args. intro H.
  repeat match type of H with
         | bind ?x _ = _ =>
             let v := fresh "v" in
             let E := fresh "E" in
             destruct x as [v|] eqn:E; cbn [bind] in H; [|discriminate H]
         end.
  injection H as <-.
  eexists _, _, _, _, _, _, _, _, _, _, _, _, _.
  split; [reflexivity|]. repeat split; reflexivity.
Qed.

(** X10.  A configuration file whose top-level JSON value is not an
    object (a list, a string, a number, [null]) makes the merge raise
    [AttributeError], whatever the command line holds. *)
Theorem merge_rejects_non_dict :
  forall (config : pyval) (args : Namespace),
    (forall d, config <> PDict d) ->
    merge_config_with_args config args = Raise AttributeError.
Proof.
  intros config args H.
  assert (G : forall k v, get config k v = Raise AttributeError).
  { intros k v. destruct config; try reflexivity. exfalso. exact (H d eq_refl). }
  unfold merge_config_with_args, py_or, py_if.
  destruct (truthy (of_opt_str (arg_mkv_file args)));
    rewrite ?G; cbn [bind]; [|reflexivity].
  destruct (truthy (of_opt_str (arg_output args)));
    rewrite ?G; cbn [bind]; [|reflexivity].
  destruct (negb (str_eqb (arg_template args) (lit "default")));
    rewrite ?G; cbn [bind]; reflexivity.
Qed.

Lemma merge_rejects_non_dict_witness :
  merge_config_with_args (load_config_file (ConfigJson (PList [])))
                         (parse_args cl_strategy_start)
  = Raise AttributeError.
Proof.
  apply merge_rejects_non_dict. intros d H. discriminate H.
Defined.

(** X11.  Without a usable configuration file (none, or one that is
    not JSON) the merge never raises and the merged configuration is
    the command line itself: every option has the value parsed from the
    command line, an optional path left out or empty is [None], and no
    custom template is set. *)
Theorem merge_without_file :
  forall (f : config_file) (args : Namespace),
    f = ConfigAbsent \/ f = ConfigNotJson ->
    exists offset percentage,
      offset == arg_offset args
      /\ percentage == arg_percentage args
      /\ merge_config_with_args (load_config_file f) args
         = Ok (merged_dict
                 (given (arg_mkv_file args)) (given (arg_output args))
                 (PStr (arg_template args)) PNone
                 (PStr (arg_strategy args)) (PFloat offset)
                 (PFloat percentage) (PInt (arg_duration args))
                 (given (arg_ffmpeg args)) (given (arg_mkvextract args))
                 (given (arg_mkvpropedit args))
                 (PBool (arg_no_backup args))
                 (PBool (arg_skip_check args))).
Proof.
  intros f args Hf.
  assert (E : load_config_file f = PDict []) by (destruct Hf; subst; reflexivity).
  rewrite E. clear E Hf.
  exists (if Qeq_bool (arg_offset args) 5 then 5 else arg_offset args),
         (if Qeq_bool (arg_percentage args) (1 # 2) then 1 # 2
          else arg_percentage args).
  split.
  { destruct (Qeq_bool (arg_offset args) 5) eqn:Q; [|reflexivity].
    symmetry. apply Qeq_bool_eq. exact Q. }
  split.
  { destruct (Qeq_bool (arg_percentage args) (1 # 2)) eqn:Q; [|reflexivity].
    symmetry. apply Qeq_bool_eq. exact Q. }
  assert (G : forall o, py_or (of_opt_str o) (Ok PNone) = Ok (given o)).
  { intros [[|c s]|]; reflexivity. }
  assert (B : forall b, py_or (PBool b) (Ok (PBool false)) = Ok (PBool b)).
  { intros [|]; reflexivity. }
  unfold merge_config_with_args, get2, get. cbn [bind dict_get assoc].
  rewrite !G, !B. cbn [bind].
  unfold py_if.
  destruct (str_eqb (arg_template args) (lit "default")) eqn:Et;
    [apply str_eqb_eq in Et; rewrite Et|]; cbn [negb bind];
  (destruct (str_eqb (arg_strategy args) (lit "start")) eqn:Es;
    [apply str_eqb_eq in Es; rewrite Es|]; cbn [negb bind];
   destruct (Qeq_bool (arg_offset args) 5); cbn [negb bind];
   destruct (Qeq_bool (arg_percentage args) (1 # 2)); cbn [negb bind];
   (destruct (Z.eqb_spec (arg_duration args) 3) as [Ed|Ed];
    [rewrite Ed|]; cbn [negb bind]; reflexivity)).
Qed.

Lemma merge_without_file_witness :
  exists offset percentage,
    offset == 5 /\ percentage == 1 # 2
    /\ merge_config_with_args (load_config_file ConfigAbsent)
                              (parse_args cl_strategy_start)
       = Ok (merged_dict (PStr (lit "video.mkv")) PNone
               (PStr (lit "default")) PNone (PStr (lit "start"))
               (PFloat offset) (PFloat percentage) (PInt 3)
               PNone PNone PNone (PBool false) (PBool false)).
Proof.
  apply (@merge_without_file ConfigAbsent (parse_args cl_strategy_start)).
  left. reflexivity.
Defined.

Lemma py_if_true (a : pyval) (b : result pyval) (v : pyval) :
  py_if true a b = Ok v -> v = a.
Proof. unfold py_if. congruence. Qed.

Lemma py_or_given (c : char) (s : str) (b : result pyval) (v : pyval) :
  py_or (of_opt_str (Some (c :: s))) b = Ok v -> v = PStr (c :: s).
Proof. unfold py_or. simpl. congruence. Qed.

(** X12.  Whenever the merge succeeds, a command-line value that
    differs from the parser's default is the merged value, whatever the
    file says: this holds for the strategy, offset, percentage,
    duration and template, for every non-empty path (video, output and
    the three tools) and for the two flags when set. *)
Theorem cli_value_wins :
  forall (config : pyval) (args : Namespace) (m : pyval),
    merge_config_with_args config args = Ok m ->
    (str_eqb (arg_strategy args) (lit "start") = false ->
     merged_setting (Ok m) (lit "recognition") (lit "strategy")
     = Ok (PStr (arg_strategy args)))
    /\ (Qeq_bool (arg_offset args) 5 = false ->
        merged_setting (Ok m) (lit "recognition") (lit "offset")
        = Ok (PFloat (arg_offset args)))
    /\ (Qeq_bool (arg_percentage args) (1 # 2) = false ->
        merged_setting (Ok m) (lit "recognition") (lit "percentage")
        = Ok (PFloat (arg_percentage args)))
    /\ (arg_duration args <> 3%Z ->
        merged_setting (Ok m) (lit "recognition") (lit "duration")
        = Ok (PInt (arg_duration args)))
    /\ (str_eqb (arg_template args) (lit "default") = false ->
        getitem m (lit "template") = Ok (PStr (arg_template args)))
    /\ (forall c s, arg_mkv_file args = Some (c :: s) ->
        getitem m (lit "mkv_file") = Ok (PStr (c :: s)))
    /\ (forall c s, arg_output args = Some (c :: s) ->
        getitem m (lit "output") = Ok (PStr (c :: s)))
    /\ (forall c s, arg_ffmpeg args = Some (c :: s) ->
        merged_setting (Ok m) (lit "tools") (lit "ffmpeg")
        = Ok (PStr (c :: s)))
    /\ (forall c s, arg_mkvextract args = Some (c :: s) ->
        merged_setting (Ok m) (lit "tools") (lit "mkvextract")
        = Ok (PStr (c :: s)))
    /\ (forall c s, arg_mkvpropedit args = Some (c :: s) ->
        merged_setting (Ok m) (lit "tools") (lit "mkvpropedit")
        = Ok (PStr (c :: s)))
    /\ (arg_no_backup args = true ->
        merged_setting (Ok m) (lit "options") (lit "no_backup")
        = Ok (PBool true))
    /\ (arg_skip_check args = true ->
        merged_setting (Ok m) (lit "options") (lit "skip_check")
        = Ok (PBool true)).
Proof.
  intros config args m H.
  destruct (merge_fields _ _ H)
    as (mkv & out & tpl & cus & str_ & off & pct & dur & ff & mx & mp & nb & sc
        & -> & Hmkv & Hout & Htpl & Hcus & Hstr & Hoff & Hpct & Hdur & Hff
        & Hmx & Hmp & Hnb & Hsc).
  repeat split.
  - intro E. rewrite E in Hstr. apply py_if_true in Hstr. subst. reflexivity.
  - intro E. rewrite E in Hoff. apply py_if_true in Hoff. subst. reflexivity.
  - intro E. rewrite E in Hpct. apply py_if_true in Hpct. subst. reflexivity.
  - intro E. apply Z.eqb_neq in E. rewrite E in Hdur.
    apply py_if_true in Hdur. subst. reflexivity.
  - intro E. rewrite E in Htpl. apply py_if_true in Htpl. subst. reflexivity.
  - intros c s E. rewrite E in Hmkv. apply py_or_given in Hmkv. subst.
    reflexivity.
  - intros c s E. rewrite E in Hout. apply py_or_given in Hout. subst.
    reflexivity.
  - intros c s E. rewrite E in Hff. apply py_or_given in Hff. subst.
    reflexivity.
  - intros c s E. rewrite E in Hmx. apply py_or_given in Hmx. subst.
    reflexivity.
  - intros c s E. rewrite E in Hmp. apply py_or_given in Hmp. subst.
    reflexivity.
  - intro E. rewrite E in Hnb. unfold py_or in Hnb. simpl in Hnb.
    injection Hnb as <-. reflexivity.
  - intro E. rewrite E in Hsc. unfold py_or in Hsc. simpl in Hsc.
    injection Hsc as <-. reflexivity.
Qed.

(** The command line [--strategy end --duration 5] against a file that
    asks for [middle]. *)
Lemma cli_value_wins_witness :
  let args :=
    parse_args (mkCommandLine (Some (lit "video.mkv")) None (Some (lit "end"))
                  None None (Some 5%Z) None None None None false false) in
  let m :=
    match merge_config_with_args config_strategy_middle args with
    | Ok m => m
    | Raise _ => PNone
    end in
  merged_setting (Ok m) (lit "recognition") (lit "strategy")
  = Ok (PStr (lit "end"))
  /\ merged_setting (Ok m) (lit "recognition") (lit "duration") = Ok (PInt 5).
Proof.
  intros args m.
  destruct (@cli_value_wins config_strategy_middle args m)
    as (Hs & _ & _ & Hd & _); [vm_compute; reflexivity|].
  split; [apply Hs; reflexivity | apply Hd; discriminate].
Defined.

(** X13.  A custom template in the configuration file overrides the
    template option: when the merge succeeds and the file's
    [custom_template] is truthy, [main] uses exactly that value,
    whatever [--template] names; without one, [--template custom] makes
    the template's construction raise [ValueError]. *)
Theorem custom_template_overrides :
  forall (d : list (str * pyval)) (args : Namespace) (m : pyval),
    merge_config_with_args (PDict d) args = Ok m ->
    let custom := dict_get d (lit "custom_template") PNone in
    (truthy custom = true -> select_template m = Ok custom)
    /\ (truthy custom = false -> arg_template args = lit "custom" ->
        select_template m = Raise ValueError).
Proof.
  intros d args m H custom.
  destruct (merge_fields _ _ H)
    as (mkv & out & tpl & cus & str_ & off & pct & dur & ff & mx & mp & nb & sc
        & -> & Hmkv & Hout & Htpl & Hcus & _).
  cbn [get] in Hcus. injection Hcus as <-. fold custom.
  assert (E1 : getitem (merged_dict mkv out tpl custom str_ off pct dur ff mx
                          mp nb sc) (lit "custom_template") = Ok custom)
    by reflexivity.
  assert (E2 : getitem (merged_dict mkv out tpl custom str_ off pct dur ff mx
                          mp nb sc) (lit "template") = Ok tpl)
    by reflexivity.
  unfold select_template. rewrite E1, E2. cbn [bind]. split.
  - intros ->. reflexivity.
  - intros -> Et. rewrite Et in Htpl. apply py_if_true in Htpl. subst tpl.
    reflexivity.
Qed.

Lemma custom_template_overrides_witness :
  let d := [ (lit "custom_template", PStr (lit "{name} by {artists}")) ] in
  let args :=
    parse_args (mkCommandLine (Some (lit "video.mkv")) None None None None None
                  (Some (lit "simple")) None None None false false) in
  select_template
    (match merge_config_with_args (PDict d) args with
     | Ok m => m | Raise _ => PNone end)
  = Ok (PStr (lit "{name} by {artists}")).
Proof.
  intros d args.
  refine (proj1 (@custom_template_overrides d args _ _) _).
  - vm_compute. reflexivity.
  - reflexivity.
Defined.

(** X14.  The configuration file that [--create-config] writes is
    neutral: read back and merged with any command line, it gives the
    same result as no configuration at all. *)
Theorem default_config_neutral :
  forall args : Namespace,
    merge_config_with_args (load_config_file (ConfigJson default_config_dict))
                           args
    = merge_config_with_args (load_config_file ConfigAbsent) args.
Proof.
  intro args.
  assert (G1 : forall k v,
             get2 default_config_dict (lit "recognition") k v
             = Ok (dict_get [ (lit "strategy", PStr (lit "start"));
                              (lit "offset", PFloat 5);
                              (lit "percentage", PFloat (1 # 2));
                              (lit "duration", PInt 3) ] k v))
    by reflexivity.
  assert (G2 : forall k v,
             get2 default_config_dict (lit "tools") k v
             = Ok (dict_get [ (lit "ffmpeg", PNone);
                              (lit "mkvextract", PNone);
                              (lit "mkvpropedit", PNone) ] k v))
    by reflexivity.
  assert (G3 : forall k v,
             get2 default_config_dict (lit "options") k v
             = Ok (dict_get [ (lit "no_backup", PBool false);
                              (lit "skip_check", PBool false) ] k v))
    by reflexivity.
  unfold merge_config_with_args, load_config_file.
  rewrite !G1, !G2, !G3.
  reflexivity.
Qed.

(** ** More on restoring *)

Lemma restored_list_backup (chapters : list MKVChapter) :
  restored_list (map chapter_data chapters)
  = Ok (map (fun ch => mkRestored (PStr (uid ch)) (PStr (start_time ch))
                                  (of_opt_str (end_time ch)) (PStr (title ch)))
            chapters).
Proof.
  induction chapters as [|ch rest IH]; [reflexivity|].
  cbn [map restored_list]. rewrite IH. reflexivity.
Qed.

Lemma simple_chapter_file_backup (chapters : list MKVChapter) :
  forall i,
    simple_chapter_file i
      (map (fun ch => mkRestored (PStr (uid ch)) (PStr (start_time ch))
                                 (of_opt_str (end_time ch)) (PStr (title ch)))
           chapters)
    = Ok (simple_text i chapters).
Proof.
  induction chapters as [|ch rest IH]; intro i; [reflexivity|].
  cbn [map simple_chapter_file simple_text]. rewrite IH.
  unfold simple_chapter_lines. cbn [r_start_time r_title py_str bind].
  f_equal. repeat rewrite <- app_assoc. reflexivity.
Qed.

Lemma simple_text_start_and_title (chapters : list MKVChapter) :
  forall i, simple_text i (map start_and_title chapters) = simple_text i chapters.
Proof.
  induction chapters as [|ch rest IH]; intro i; [reflexivity|].
  cbn [map simple_text start_and_title start_time title]. rewrite IH.
  reflexivity.
Qed.

Lemma restore_backup_run (w : world) (chapters : list MKVChapter) :
  chapters <> [] ->
  restore_from_backup w (BackupJson (chapters_data_of chapters))
  = ([EvMkvpropedit None (simple_text 0 chapters)],
     if (run_mkvpropedit w (simple_text 0 chapters) =? 0)%Z
     then Ok tt else Raise RuntimeError).
Proof.
  intro Hne. unfold restore_from_backup, chapters_data_of.
  destruct chapters as [|c0 rest] eqn:Ec; [congruence|].
  rewrite <- Ec. clear Hne.
  assert (T : truthy (PList (map chapter_data chapters)) = true)
    by (rewrite Ec; reflexivity).
  rewrite T. cbn [negb iterate].
  unfold mbind, lift, emit, raise, ret.
  rewrite restored_list_backup, simple_chapter_file_backup. cbn [app].
  destruct (run_mkvpropedit w (simple_text 0 chapters) =? 0)%Z; reflexivity.
Qed.

(** X15.  Restoring from the sidecar that a run wrote calls
    mkvpropedit exactly once, with a chapter file of two lines per
    chapter ([CHAPTERnn=start] and [CHAPTERnnNAME=title], numbered from
    00), and raises [RuntimeError] exactly when the tool fails.  The
    chapter file holds the start times and titles only: the UIDs and
    the end times of the backup have no effect on what is restored. *)
Theorem restore_after_backup :
  forall (w : world) (chapters : list MKVChapter),
    chapters <> [] ->
    restore_from_backup w (BackupJson (chapters_data_of chapters))
    = ([EvMkvpropedit None (simple_text 0 chapters)],
       if (run_mkvpropedit w (simple_text 0 chapters) =? 0)%Z
       then Ok tt else Raise RuntimeError)
    /\ restore_from_backup w
         (BackupJson (chapters_data_of (map start_and_title chapters)))
       = restore_from_backup w (BackupJson (chapters_data_of chapters)).
Proof.
  intros w chapters Hne. split; [exact (restore_backup_run w Hne)|].
  rewrite (restore_backup_run w Hne).
  rewrite restore_backup_run by (destruct chapters; [congruence|discriminate]).
  rewrite simple_text_start_and_title. reflexivity.
Qed.

Lemma restore_after_backup_witness :
  restore_from_backup (example_world [] [] no_match_response)
    (BackupJson (chapters_data_of [recognised_chapter]))
  = ([EvMkvpropedit None
        (lit "CHAPTER00=00:00:00.000" ++ 10%N :: lit "CHAPTER00NAME=X - A"
         ++ [10%N])],
     Ok tt).
Proof.
  refine (proj1 (@restore_after_backup (example_world [] [] no_match_response)
                   [recognised_chapter] _)).
  discriminate.
Defined.

Lemma restored_list_raises items e :
  restored_list items = Raise e -> e <> RuntimeError.
Proof.
  revert e. induction items as [|data rest IH]; intros e; simpl; [discriminate|].
  unfold restored_of, getitem, get.
  destruct data; simpl; try (intro H; injection H as <-; discriminate).
  destruct (assoc d (lit "uid")); simpl;
    [|intro H; injection H as <-; discriminate].
  destruct (assoc d (lit "start_time")); simpl;
    [|intro H; injection H as <-; discriminate].
  destruct (assoc d (lit "title")); simpl;
    [|intro H; injection H as <-; discriminate].
  destruct (restored_list rest) as [l|e']; simpl; [discriminate|].
  intro H. injection H as <-. apply IH. reflexivity.
Qed.

Lemma py_str_raises v e : py_str v = Raise e -> e <> RuntimeError.
Proof.
  destruct v as [| [|] | | | | |]; simpl; intro H;
    try discriminate H; injection H as <-; discriminate.
Qed.

Lemma simple_chapter_file_raises chapters :
  forall i e, simple_chapter_file i chapters = Raise e -> e <> RuntimeError.
Proof.
  induction chapters as [|c rest IH]; intros i e; simpl; [discriminate|].
  unfold simple_chapter_lines.
  destruct (py_str (r_start_time c)) as [st|e1] eqn:E1; simpl.
  2:{ intro H. injection H as <-. exact (py_str_raises _ E1). }
  destruct (py_str (r_title c)) as [ti|e2] eqn:E2; simpl.
  2:{ intro H. injection H as <-. exact (py_str_raises _ E2). }
  destruct (simple_chapter_file (S i) rest) as [ls|e3] eqn:E3; simpl;
    [discriminate|].
  intro H. injection H as <-. exact (IH _ _ E3).
Qed.

(** X16.  Whatever the sidecar holds, a restore calls mkvpropedit at
    most once, and only after the whole backup has been read and every
    chapter line rendered: a restore that fails for any reason other
    than the tool's own failure ([RuntimeError]) has invoked no tool,
    and a restore that succeeds or raises [RuntimeError] has invoked
    the tool exactly once, the return code deciding between the two. *)
Theorem restore_writes_at_most_once :
  forall (w : world) (backup : backup_file),
    let log := fst (restore_from_backup w backup) in
    let r := snd (restore_from_backup w backup) in
    (exists e, e <> RuntimeError /\ r = Raise e /\ log = [])
    \/ (exists text,
          log = [EvMkvpropedit None text]
          /\ r = if (run_mkvpropedit w text =? 0)%Z
                 then Ok tt else Raise RuntimeError).
Proof.
  intros w backup. cbv zeta. unfold restore_from_backup.
  destruct backup as [| |v].
  - left. exists FileNotFoundError. repeat split. discriminate.
  - left. exists ValueError. repeat split. discriminate.
  - destruct (truthy v).
    2:{ left. exists ValueError. repeat split. discriminate. }
    cbn [negb]. unfold mbind, lift, emit, raise, ret.
    destruct (iterate v) as [items|e1] eqn:E1.
    2:{ left. exists e1. repeat split.
        destruct v; simpl in E1; try discriminate E1;
          injection E1 as <-; discriminate. }
    destruct (restored_list items) as [chapters|e2] eqn:E2.
    2:{ left. exists e2. repeat split. exact (restored_list_raises _ E2). }
    destruct (simple_chapter_file 0 chapters) as [text|e3] eqn:E3.
    2:{ left. exists e3. repeat split.
        exact (simple_chapter_file_raises _ _ E3). }
    right. exists text. cbn [app].
    destruct (run_mkvpropedit w text =? 0)%Z; split; reflexivity.
Qed.

(** ** More on time strings *)

(** X17.  [parse_time_to_seconds] reads the first three
    colon-separated fields and ignores any further ones; a string with
    fewer than three fields raises [IndexError] once the fields it has
    were read as integers. *)
Theorem parse_time_fields :
  forall a b c rest : str,
    forallb (fun x => negb (N.eqb x 58)) a = true ->
    forallb (fun x => negb (N.eqb x 58)) b = true ->
    forallb (fun x => negb (N.eqb x 58)) c = true ->
    parse_time_to_seconds (a ++ 58%N :: b ++ 58%N :: c ++ 58%N :: rest)
    = parse_time_to_seconds (a ++ 58%N :: b ++ 58%N :: c)
    /\ (is_ok (py_int a) = true -> is_ok (py_int b) = true ->
        parse_time_to_seconds (a ++ 58%N :: b) = Raise IndexError)
    /\ (is_ok (py_int a) = true ->
        parse_time_to_seconds a = Raise IndexError).
Proof.
  intros a b c rest Ha Hb Hc. unfold parse_time_to_seconds.
  rewrite !(@split_sep _ _ _ Ha), !(@split_sep _ _ _ Hb).
  rewrite (@split_sep _ _ _ Hc), !(@split_no_sep _ _ Hc).
  rewrite (@split_no_sep _ _ Ha), (@split_no_sep _ _ Hb).
  cbn [index nth_error bind]. split; [|split].
  - destruct (split 58%N rest); reflexivity.
  - intros Ia Ib. destruct (py_int a); [|discriminate Ia].
    destruct (py_int b); [|discriminate Ib]. reflexivity.
  - intros Ia. destruct (py_int a); [|discriminate Ia]. reflexivity.
Qed.

Lemma parse_time_fields_witness :
  parse_time_to_seconds (lit "01:02:03.5:99") = parse_time_to_seconds (lit "01:02:03.5")
  /\ parse_time_to_seconds (lit "01:02") = Raise IndexError.
Proof.
  destruct (@parse_time_fields (lit "01") (lit "02") (lit "03.5") (lit "99"))
    as (H1 & H2 & _); try reflexivity.
  split; [exact H1 | apply H2; reflexivity].
Defined.



(** ** More on sampling *)




(** ** More on the chapter codec *)

Section SplitPieces.

Variable c : char.

Lemma split_pieces (s : str) :
  forall p, In p (split c s) -> forallb (fun x => negb (N.eqb x c)) p = true.
Proof.
  induction s as [|x t IH]; intros p H.
  - destruct H as [<-|[]]. reflexivity.
  - cbn [split] in H. destruct (N.eqb x c) eqn:E.
    + destruct H as [<-|H]; [reflexivity | exact (IH _ H)].
    + destruct (split c t) as [|q qs] eqn:Es.
      * destruct H as [<-|[]]. simpl. rewrite E. reflexivity.
      * destruct H as [<-|H].
        -- simpl. rewrite E. simpl. apply IH. left. reflexivity.
        -- apply IH. right. exact H.
Qed.

Lemma join_split (s : str) : join [c] (split c s) = s.
Proof.
  induction s as [|x t IH]; [reflexivity|].
  cbn [split]. pose proof (@split_nonempty c t) as Hn.
  destruct (split c t) as [|q qs] eqn:Es; [congruence|].
  destruct (N.eqb_spec x c) as [->|_].
  - change (join [c] ([] :: q :: qs)) with (c :: join [c] (q :: qs)).
    rewrite IH. reflexivity.
  - destruct qs as [|q' qs'].
    + cbn [join] in *. rewrite IH. reflexivity.
    + change (join [c] ((x :: q) :: q' :: qs'))
        with (x :: (q ++ [c] ++ join [c] (q' :: qs'))).
      change (join [c] (q :: q' :: qs'))
        with (q ++ [c] ++ join [c] (q' :: qs')) in IH.
      rewrite IH. reflexivity.
Qed.

(** A string with the separator in it splits into at least two pieces,
    and begins with the first, the separator and the second. *)
Lemma split_two (s : str) :
  existsb (N.eqb c) s = true ->
  exists p0 p1 ps tail,
    split c s = p0 :: p1 :: ps /\ s = p0 ++ c :: p1 ++ tail.
Proof.
  intro H. pose proof (join_split s) as J.
  pose proof (@split_nonempty c s) as Hn.
  pose proof (split_pieces s) as P.
  destruct (split c s) as [|p0 [|p1 ps]] eqn:Es; [congruence| |].
  - exfalso. cbn [join] in J. subst p0.
    specialize (P s (or_introl eq_refl)).
    clear Es Hn. induction s as [|x t IH]; [discriminate H|].
    simpl in H, P. apply andb_true_iff in P. destruct P as [Px Pt].
    apply negb_true_iff in Px. rewrite N.eqb_sym in Px. rewrite Px in H.
    simpl in H. exact (IH H Pt).
  - exists p0, p1, ps.
    destruct ps as [|p2 ps'].
    + exists []. split; [reflexivity|]. rewrite app_nil_r.
      rewrite <- J. reflexivity.
    + exists ([c] ++ join [c] (p2 :: ps')). split; [reflexivity|].
      rewrite <- J at 1. reflexivity.
Qed.

End SplitPieces.

Lemma firstn_forallb (A : Type) (f : A -> bool) (n : nat) (l : list A) :
  forallb f l = true -> forallb f (firstn n l) = true.
Proof.
  revert l. induction n as [|n IH]; intros [|x l] H; try reflexivity.
  simpl in *. apply andb_true_iff in H. destruct H as [Hx Hl].
  rewrite Hx, (IH _ Hl). reflexivity.
Qed.

(** The three cases of the clean-up. *)
Lemma truncate_time_cases (t : str) :
  (truncate_time t = t /\ ms_truncated t = true)
  \/ (exists p0 p1 tail,
        t = p0 ++ 46%N :: p1 ++ tail
        /\ forallb (fun x => negb (N.eqb x 46)) p0 = true
        /\ forallb (fun x => negb (N.eqb x 46)) p1 = true
        /\ (3 < List.length p1)%nat
        /\ truncate_time t = p0 ++ 46%N :: firstn 3 p1).
Proof.
  unfold truncate_time, ms_truncated.
  destruct (existsb (N.eqb 46) t) eqn:E; [|left; split; reflexivity].
  destruct (@split_two 46%N t E) as (p0 & p1 & ps & tail & Es & Et).
  rewrite Es. cbn [nth negb orb].
  destruct (Nat.ltb_spec 3 (List.length p1)) as [L|L].
  - right. exists p0, p1, tail.
    pose proof (@split_pieces 46%N t) as P. rewrite Es in P.
    split; [exact Et|].
    split; [apply P; left; reflexivity|].
    split; [apply P; right; left; reflexivity|].
    split; [exact L | reflexivity].
  - left. split; [reflexivity|]. apply Nat.leb_le. exact L.
Qed.

Lemma ms_truncated_cut (p0 p1 : str) :
  forallb (fun x => negb (N.eqb x 46)) p0 = true ->
  forallb (fun x => negb (N.eqb x 46)) p1 = true ->
  ms_truncated (p0 ++ 46%N :: firstn 3 p1) = true.
Proof.
  intros H0 H1. unfold ms_truncated. apply orb_true_iff. right.
  rewrite (@split_sep _ _ _ H0).
  assert (E : split 46%N (firstn 3 p1) = [firstn 3 p1])
    by (apply split_no_sep; apply firstn_forallb; exact H1).
  rewrite E. cbn [nth]. apply Nat.leb_le. rewrite length_firstn. lia.
Qed.

Lemma truncate_time_truncated (t : str) : ms_truncated (truncate_time t) = true.
Proof.
  destruct (truncate_time_cases t)
    as [[-> H]|(p0 & p1 & tail & _ & H0 & H1 & _ & ->)]; [exact H|].
  apply ms_truncated_cut; assumption.
Qed.


(** X20.  The clean-up of a time string only cuts: its result is a
    prefix of the string it was given (digits beyond the third decimal
    are dropped, nothing is rounded or rewritten), a string without a
    dot or with at most three characters after its first dot is left as
    it is, and cleaning a second time changes nothing. *)
Theorem truncate_time_cuts :
  forall t : str,
    (exists dropped, t = truncate_time t ++ dropped)
    /\ (ms_truncated t = true -> truncate_time t = t)
    /\ truncate_time (truncate_time t) = truncate_time t.
Proof.
  intro t. split; [|split].
  - destruct (truncate_time_cases t)
      as [[-> _]|(p0 & p1 & tail & Et & _ & _ & _ & ->)].
    + exists []. rewrite app_nil_r. reflexivity.
    + exists (skipn 3 p1 ++ tail).
      rewrite <- app_assoc. cbn [app]. rewrite app_assoc.
      rewrite firstn_skipn. exact Et.
  - apply ms_truncated_fixed.
  - apply ms_truncated_fixed. apply truncate_time_truncated.
Qed.

Lemma truncate_time_cuts_witness :
  truncate_time (lit "00:03:25.000") = lit "00:03:25.000".
Proof.
  apply (proj1 (proj2 (truncate_time_cuts (lit "00:03:25.000")))).
  reflexivity.
Defined.

Lemma finditer_no_atom (s : str) :
  contains (lit "<ChapterAtom>") s = false -> finditer chapter_pattern s = [].
Proof.
  induction s as [|x t IH]; intro H.
  - reflexivity.
  - rewrite finditer_step. cbn [contains] in H.
    apply orb_false_iff in H. destruct H as [Hs Ht].
    rewrite (no_atom_no_match _ Hs). exact (IH Ht).
Qed.

(** X21.  A document in which the text [<ChapterAtom>] does not occur
    decodes to no chapter at all, whatever else it holds. *)
Theorem parse_without_atoms :
  forall xml_content : str,
    contains (lit "<ChapterAtom>") xml_content = false ->
    _parse_chapter_xml xml_content = [].
Proof.
  intros xml_content H. unfold _parse_chapter_xml.
  rewrite (finditer_no_atom _ H). reflexivity.
Qed.

Lemma parse_without_atoms_witness :
  _parse_chapter_xml (_generate_chapter_xml []) = [].
Proof. apply parse_without_atoms. vm_compute. reflexivity. Defined.



(** ** More on title templates *)

Section Blanks.

Lemma lstrip_collapse (t : str) :
  collapse true t = collapse false (lstrip t).
Proof.
  induction t as [|c t IH]; [reflexivity|].
  cbn [collapse lstrip]. destruct (isspace c) eqn:E; [exact IH|].
  cbn [collapse]. rewrite E. reflexivity.
Qed.

Lemma lstrip_length (t : str) : (List.length (lstrip t) <= List.length t)%nat.
Proof.
  induction t as [|c t IH]; [simpl; lia|].
  cbn [lstrip]. destruct (isspace c); simpl in *; lia.
Qed.

Lemma star_greedy_spaces (A : Type) (k : str -> option A) (t : str) :
  (forall s, k s <> None) ->
  star_greedy isspace k t = k (lstrip t).
Proof.
  intro Hk. induction t as [|c t IH]; [reflexivity|].
  cbn [star_greedy lstrip]. destruct (isspace c); [|reflexivity].
  rewrite IH. destruct (k (lstrip t)) eqn:E; [reflexivity|].
  exfalso. exact (Hk _ E).
Qed.

Lemma match_spaces1 (s : str) :
  match_here spaces1 s =
  match s with
  | c :: t => if isspace c then Some ([], lstrip t) else None
  | [] => None
  end.
Proof.
  unfold match_here, spaces1. cbn [exec].
  destruct s as [|c t]; [reflexivity|].
  destruct (isspace c); [|reflexivity].
  apply star_greedy_spaces. intros s H. discriminate H.
Qed.

Lemma sub_spaces1_from (n : nat) :
  forall (s : str) (fuel : nat),
    (List.length s <= n)%nat -> (List.length s < fuel)%nat ->
    sub_from fuel spaces1 (lit " ") s = collapse false s.
Proof.
  induction n as [|n IH]; intros s fuel Hn Hf;
    (destruct fuel as [|fuel]; [lia|]); cbn [sub_from];
    rewrite match_spaces1.
  - destruct s; [reflexivity | simpl in Hn; lia].
  - destruct s as [|c t]; [reflexivity|].
    cbn [collapse]. destruct (isspace c).
    + pose proof (lstrip_length t) as L. simpl in Hn, Hf.
      destruct (Nat.ltb_spec (List.length (lstrip t)) (List.length (c :: t)))
        as [_|B]; [|simpl in B; lia].
      rewrite IH by lia. rewrite lstrip_collapse. reflexivity.
    + simpl in Hn, Hf. rewrite IH by lia. reflexivity.
Qed.

Lemma sub_spaces1 (s : str) : sub spaces1 (lit " ") s = collapse false s.
Proof.
  unfold sub. apply (@sub_spaces1_from (List.length s)); lia.
Qed.

Lemma isspace_32 : isspace 32%N = true.
Proof. reflexivity. Qed.

Lemma collapse_spaced (s : str) :
  forall b,
    spaced (collapse b s) = true
    /\ (b = true ->
        match collapse b s with
        | c :: _ => isspace c = false
        | [] => True
        end).
Proof.
  induction s as [|c t IH]; intro b; [split; [reflexivity | intros; exact I]|].
  cbn [collapse]. destruct (isspace c) eqn:E.
  - destruct (IH true) as [S H]. specialize (H eq_refl).
    destruct b.
    + split; [exact S | intros _; exact H].
    + split; [|discriminate].
      cbn [spaced]. rewrite isspace_32, S.
      destruct (collapse true t) as [|c' r]; [reflexivity|].
      rewrite H. reflexivity.
  - destruct (IH false) as [S _]. split.
    + cbn [spaced]. rewrite E, S. reflexivity.
    + intros _. exact E.
Qed.

Lemma spaced_tail (c : char) (t : str) : spaced (c :: t) = true -> spaced t = true.
Proof. cbn [spaced]. intro H. apply andb_true_iff in H. apply H. Qed.

Lemma lstrip_spaced (s : str) :
  spaced s = true ->
  spaced (lstrip s) = true
  /\ match lstrip s with
     | c :: _ => isspace c = false
     | [] => True
     end.
Proof.
  induction s as [|c t IH]; intro H; [split; [reflexivity | exact I]|].
  cbn [lstrip]. destruct (isspace c) eqn:E.
  - apply IH. exact (spaced_tail _ _ H).
  - split; [exact H | exact E].
Qed.

Lemma lstrip_app_one (a : str) (c : char) :
  lstrip (a ++ [c])
  = match lstrip a with
    | [] => if isspace c then [] else [c]
    | r => r ++ [c]
    end.
Proof.
  induction a as [|x a IH]; [reflexivity|].
  cbn [app lstrip]. destruct (isspace x); [exact IH | reflexivity].
Qed.

Lemma rstrip_cons (c : char) (t : str) :
  rstrip (c :: t)
  = match rstrip t with
    | [] => if isspace c then [] else [c]
    | r => c :: r
    end.
Proof.
  unfold rstrip. cbn [rev]. rewrite lstrip_app_one.
  destruct (lstrip (rev t)) as [|y r] eqn:E.
  - cbn [rev]. destruct (isspace c); reflexivity.
  - rewrite rev_app_distr. cbn [rev app].
    destruct (rev r ++ [y]) eqn:E'; [destruct (rev r); discriminate E'|].
    reflexivity.
Qed.

Lemma rstrip_head (c : char) (t : str) :
  isspace c = false -> exists r, rstrip (c :: t) = c :: r.
Proof.
  intro E. rewrite rstrip_cons. destruct (rstrip t) as [|y r].
  - rewrite E. exists []. reflexivity.
  - exists (y :: r). reflexivity.
Qed.

Lemma rstrip_tidy_tail (s : str) : spaced s = true -> tidy_tail (rstrip s) = true.
Proof.
  induction s as [|c t IH]; intro H; [reflexivity|].
  pose proof (IH (spaced_tail _ _ H)) as T.
  rewrite rstrip_cons. destruct (rstrip t) as [|y r] eqn:Er.
  - destruct (isspace c) eqn:E; [reflexivity|].
    cbn [tidy_tail]. rewrite E. reflexivity.
  - cbn [tidy_tail] in *. rewrite T.
    destruct (isspace c) eqn:E; [|reflexivity].
    cbn [spaced] in H. rewrite E in H.
    apply andb_true_iff in H. destruct H as [H _].
    apply andb_true_iff in H. destruct H as [H32 Hn]. rewrite H32.
    destruct t as [|c' t']; [discriminate Er|].
    apply negb_true_iff in Hn.
    destruct (@rstrip_head c' t' Hn) as [r' Hr]. rewrite Hr in Er.
    injection Er as <- _. rewrite Hn. reflexivity.
Qed.

Lemma strip_tidy (s : str) : spaced s = true -> tidy (strip s) = true.
Proof.
  intro H. unfold strip, tidy.
  destruct (lstrip_spaced _ H) as [S Hh].
  rewrite (rstrip_tidy_tail _ S). cbn [andb].
  destruct (lstrip s) as [|c t]; [reflexivity|].
  destruct (@rstrip_head c t Hh) as [r ->]. rewrite Hh. reflexivity.
Qed.

End Blanks.

Section TrailingDash.

Let K : str -> captures -> option (captures * str) :=
  fun s' caps => Some (caps, s').

Lemma not_space_not_newline (c : char) : isspace c = false -> (c =? 10)%N = false.
Proof.
  intro H. destruct (N.eqb_spec c 10) as [->|]; [discriminate H | reflexivity].
Qed.

Lemma not_space_not_blank (c : char) : isspace c = false -> (c =? 32)%N = false.
Proof.
  intro H. destruct (N.eqb_spec c 32) as [->|]; [discriminate H | reflexivity].
Qed.

Lemma tidy_tail_cons (c : char) (t : str) :
  tidy_tail (c :: t) = true -> tidy_tail t = true.
Proof. cbn [tidy_tail]. intro H. apply andb_true_iff in H. apply H. Qed.

(** A blank inside a tidy text is a U+0020 followed by a character
    that is not a blank. *)
Lemma tidy_tail_blank (c : char) (t : str) :
  tidy_tail (c :: t) = true -> isspace c = true ->
  c = 32%N /\ exists c' t', t = c' :: t' /\ isspace c' = false.
Proof.
  cbn [tidy_tail]. intros H E. rewrite E in H.
  apply andb_true_iff in H. destruct H as [H _].
  apply andb_true_iff in H. destruct H as [H32 Hn].
  apply N.eqb_eq in H32. split; [exact H32|].
  destruct t as [|c' t']; [discriminate Hn|].
  exists c', t'. split; [reflexivity|]. apply negb_true_iff. exact Hn.
Qed.

Lemma end_after_blanks (u : str) :
  tidy_tail u = true ->
  star_greedy isspace (fun u' => exec REnd u' [] K) u
  = match u with
    | [] => Some ([], [])
    | _ :: _ => None
    end.
Proof.
  intro H. destruct u as [|c t]; [reflexivity|].
  cbn [star_greedy]. destruct (isspace c) eqn:E.
  - destruct (tidy_tail_blank _ _ H E) as (-> & c' & t' & -> & E').
    cbn [star_greedy]. rewrite E'. cbn [exec].
    destruct t' as [|c'' t'']; [|reflexivity].
    rewrite (not_space_not_newline _ E'). reflexivity.
  - cbn [exec]. destruct t as [|c' t']; [|reflexivity].
    rewrite (not_space_not_newline _ E). reflexivity.
Qed.

Lemma dash_then_end (s : str) :
  tidy_tail s = true ->
  exec (RSeq (RLit (lit "-")) (RSeq (RStar isspace) REnd)) s [] K
  = if str_eqb s (lit "-") then Some ([], []) else None.
Proof.
  intro H.
  change (exec (RSeq (RLit (lit "-")) (RSeq (RStar isspace) REnd)) s [] K)
    with (if startswith (lit "-") s
          then star_greedy isspace (fun u' => exec REnd u' [] K)
                 (skipn (List.length (lit "-")) s)
          else None).
  destruct s as [|c t]; [reflexivity|].
  change (lit "-") with [45%N]. cbn [startswith str_eqb].
  rewrite (N.eqb_sym c 45).
  destruct (45 =? c)%N; [|reflexivity]. cbn [andb List.length skipn].
  rewrite (end_after_blanks _ (tidy_tail_cons _ _ H)).
  destruct t; reflexivity.
Qed.

Lemma match_trailing_dash (s : str) :
  tidy_tail s = true ->
  match_here re_trailing_dash s
  = if is_dash_tail s then Some ([], []) else None.
Proof.
  intro H. unfold match_here, re_trailing_dash. cbn [sequence].
  change (exec (RSeq (RStar isspace)
                  (RSeq (RLit (lit "-")) (RSeq (RStar isspace) REnd)))
               s [] (fun s' caps => Some (caps, s')))
    with (star_greedy isspace
            (fun s' => exec (RSeq (RLit (lit "-"))
                               (RSeq (RStar isspace) REnd)) s' [] K) s).
  destruct s as [|c t]; [reflexivity|].
  cbn [star_greedy]. destruct (isspace c) eqn:E.
  - destruct (tidy_tail_blank _ _ H E) as (-> & c' & t' & -> & E').
    cbn [star_greedy]. rewrite E'.
    rewrite (dash_then_end _ (tidy_tail_cons _ _ H)).
    unfold is_dash_tail. change (lit " -") with [32%N; 45%N].
    change (lit "-") with [45%N].
    cbn [str_eqb N.eqb Pos.eqb andb orb].
    destruct (c' =? 45)%N eqn:E45; cbn [andb];
      [destruct t'; reflexivity | reflexivity].
  - rewrite (dash_then_end _ H).
    unfold is_dash_tail. change (lit " -") with [32%N; 45%N].
    cbn [str_eqb]. rewrite (not_space_not_blank _ E). cbn [andb].
    rewrite orb_false_r. reflexivity.
Qed.

Lemma sub_trailing_dash_from (s : str) :
  forall fuel,
    tidy_tail s = true -> (List.length s < fuel)%nat ->
    sub_from fuel re_trailing_dash [] s = drop_dash s.
Proof.
  induction s as [|c t IH]; intros fuel H Hf;
    (destruct fuel as [|fuel]; [simpl in Hf; lia|]); cbn [sub_from];
    rewrite (match_trailing_dash _ H).
  - reflexivity.
  - cbn [drop_dash]. destruct (is_dash_tail (c :: t)).
    + cbn [List.length Nat.ltb Nat.leb app].
      destruct fuel as [|fuel]; reflexivity.
    + rewrite IH; [reflexivity | exact (tidy_tail_cons _ _ H)
                   | simpl in Hf; lia].
Qed.

Lemma drop_dash_tidy_tail (s : str) :
  tidy_tail s = true -> tidy_tail (drop_dash s) = true.
Proof.
  induction s as [|c t IH]; intro H; [reflexivity|].
  cbn [drop_dash]. destruct (is_dash_tail (c :: t)) eqn:D; [reflexivity|].
  pose proof (IH (tidy_tail_cons _ _ H)) as T.
  cbn [tidy_tail]. rewrite T. destruct (isspace c) eqn:E; [|reflexivity].
  destruct (tidy_tail_blank _ _ H E) as (-> & c' & t' & -> & E').
  cbn [drop_dash].
  assert (D' : is_dash_tail (c' :: t') = false).
  { unfold is_dash_tail in *. change (lit " -") with [32%N; 45%N] in *.
    change (lit "-") with [45%N] in *.
    cbn [str_eqb N.eqb Pos.eqb andb orb] in D.
    cbn [str_eqb]. rewrite (not_space_not_blank _ E'). cbn [andb].
    rewrite orb_false_r. exact D. }
  rewrite D', E'. reflexivity.
Qed.

Lemma drop_dash_tidy (s : str) : tidy s = true -> tidy (drop_dash s) = true.
Proof.
  unfold tidy. intro H. apply andb_true_iff in H. destruct H as [T Hh].
  rewrite (drop_dash_tidy_tail _ T). cbn [andb].
  destruct s as [|c t]; [reflexivity|].
  cbn [drop_dash]. destruct (is_dash_tail (c :: t)); [reflexivity | exact Hh].
Qed.

Lemma sub_trailing_dash (s : str) :
  tidy s = true -> sub re_trailing_dash [] s = drop_dash s.
Proof.
  intro H. unfold sub. apply sub_trailing_dash_from; [|lia].
  unfold tidy in H. apply andb_true_iff in H. apply H.
Qed.

End TrailingDash.

(** X23.  Every title [ChapterTemplate.format] returns is either tidy
    (no blank at either end, and every blank inside a single U+0020
    between two characters that are not blanks) or, when the template
    names a variable that does not exist, the song's name as it came
    ([Unknown] when the song has none). *)
Theorem titles_are_tidy :
  forall (template : str) (song_info : list (str * pyval)) (title_ : str),
    ChapterTemplate_format template song_info = Ok title_ ->
    tidy title_ = true
    \/ dict_get song_info (lit "name") (PStr (lit "Unknown")) = PStr title_.
Proof.
  intros template song_info title_. unfold ChapterTemplate_format.
  destruct (template_variables song_info) as [variables|e]; [|discriminate].
  cbn [bind].
  match goal with
  | |- match str_format ?t ?v with _ => _ end = _ -> _ =>
      destruct (str_format t v) as [result|e]
  end.
  - intro H. injection H as <-. left.
    rewrite sub_spaces1.
    pose proof (strip_tidy _ (proj1 (collapse_spaced
                                        (sub re_empty_parens [] result) false)))
      as T.
    rewrite (sub_trailing_dash _ T). apply drop_dash_tidy. exact T.
  - destruct e; try discriminate.
    destruct (dict_get song_info (lit "name") (PStr (lit "Unknown")));
      try discriminate.
    intro H. injection H as <-. right. reflexivity.
Qed.

Lemma titles_are_tidy_witness :
  tidy (lit "X - A") = true
  \/ dict_get (song_record (PStr (lit "X")) (PStr (lit "A")) (PStr (lit "Al"))
                           (PInt 1) (PStr []) (PInt 0))
              (lit "name") (PStr (lit "Unknown")) = PStr (lit "X - A").
Proof.
  apply (@titles_are_tidy default_template).
  vm_compute. reflexivity.
Defined.

Section Formatting.

Variable vars : list (str * pyval).




End Formatting.




Lemma same_names_assoc (vars vars' : list (str * pyval)) (k : str) :
  same_names vars vars' ->
  match assoc vars k, assoc vars' k with
  | Some v, Some v' => printable v = true /\ printable v' = true
  | None, None => True
  | _, _ => False
  end.
Proof.
  unfold same_names.
  induction 1 as [|[n v] [n' v'] l l' (Hn & Hv & Hv') _ IH]; [exact I|].
  cbn [fst snd] in *. subst n'. cbn [assoc].
  destruct (str_eqb n k); [split; assumption | exact IH].
Qed.

Section SameNames.

Variables vars vars' : list (str * pyval).
Hypothesis Hsame : same_names vars vars'.

Lemma printable_ok (v : pyval) : printable v = true -> is_ok (py_str v) = true.
Proof. destruct v as [| [|] | | | | |]; simpl; congruence. Qed.

Lemma same_names_field (k : str) :
  is_ok (format_field vars k) = is_ok (format_field vars' k).
Proof.
  unfold format_field.
  destruct (existsb field_special k); [reflexivity|].
  destruct (forallb is_digit k); [reflexivity|].
  pose proof (@same_names_assoc vars vars' k Hsame) as H.
  destruct (assoc vars k) as [v|], (assoc vars' k) as [v'|];
    try contradiction; [|reflexivity].
  destruct H as [Hv Hv'].
  rewrite (printable_ok _ Hv), (printable_ok _ Hv'). reflexivity.
Qed.

Lemma is_ok_map (A B : Type) (m : result A) (g : A -> B) :
  is_ok (x <- m ;; Ok (g x)) = is_ok m.
Proof. destruct m; reflexivity. Qed.

Lemma same_names_go (n : nat) :
  forall (s : str) (field : option str),
    (List.length s <= n)%nat ->
    is_ok (format_go vars s field) = is_ok (format_go vars' s field).
Proof.
  induction n as [|n IH]; intros s field Hn.
  - destruct s; [destruct field; reflexivity | simpl in Hn; lia].
  - destruct s as [|c t]; [destruct field; reflexivity|].
    simpl in Hn. assert (Ht : (List.length t <= n)%nat) by lia.
    destruct field as [acc|]; cbn [format_go].
    + destruct (c =? 125)%N.
      * pose proof (same_names_field (rev acc)) as F.
        pose proof (IH t None Ht) as G.
        destruct (format_field vars (rev acc)),
                 (format_field vars' (rev acc)); try discriminate F;
          cbn [bind]; [|reflexivity].
        rewrite !is_ok_map. exact G.
      * destruct (c =? 123)%N; [reflexivity | apply IH; exact Ht].
    + destruct (c =? 123)%N.
      * destruct t as [|c' t']; [reflexivity|].
        destruct (c' =? 123)%N.
        -- rewrite !is_ok_map. apply IH. simpl in Ht. lia.
        -- apply IH. exact Ht.
      * destruct (c =? 125)%N.
        -- destruct t as [|c' t']; [reflexivity|].
           destruct (c' =? 125)%N; [|reflexivity].
           rewrite !is_ok_map. apply IH. simpl in Ht. lia.
        -- rewrite !is_ok_map. apply IH. exact Ht.
Qed.

(** Whether a template renders depends on the names of the variables,
    not on their values. *)
Lemma same_names_format (template : str) :
  is_ok (str_format template vars) = is_ok (str_format template vars').
Proof. unfold str_format. apply (@same_names_go (List.length template)). lia. Qed.

End SameNames.

Lemma preset_renders_blank (key template : str) (b : bool) :
  In (key, Some template) TEMPLATES ->
  is_ok (str_format
           (if contains (lit "{trans_name}") template && b
            then strip (sub spaces1 (lit " ") (sub re_trans_name [] template))
            else template)
           blank_variables) = true.
Proof.
  intro H. unfold TEMPLATES in H. cbn [In] in H.
  repeat (destruct H as [H|H];
          [injection H as <- <-; destruct b; vm_compute; reflexivity|]).
  destruct H as [H|[]]. discriminate H.
Qed.

(** X25.  The nine preset templates always render: for a song record
    as recognition returns it, with the artists as one string and the
    other values strings, integers, booleans or [None], formatting
    never raises, whether or not the song has a translated name. *)
Theorem presets_always_render :
  forall (key template : str) (name album id transName popularity : pyval)
         (artists : str),
    In (key, Some template) TEMPLATES ->
    printable name = true -> printable album = true -> printable id = true ->
    printable transName = true -> printable popularity = true ->
    is_ok (ChapterTemplate_format template
             (song_record name (PStr artists) album id transName popularity))
    = true.
Proof.
  intros key template name album id transName popularity artists
         Hin Hname Halbum Hid Htrans Hpop.
  unfold ChapterTemplate_format, template_variables.
  assert (Haf : exists af, artist_first (song_record name (PStr artists) album
                                           id transName popularity)
                           = Ok (PStr af)).
  { unfold artist_first, song_record.
    change (dict_get _ (lit "artists") (PStr [])) with (PStr artists).
    destruct (truthy (PStr artists)); [|exists []; reflexivity].
    unfold index. pose proof (@split_nonempty 44%N artists) as Hs.
    destruct (split 44%N artists) as [|p ps]; [congruence|].
    exists (strip p). reflexivity. }
  destruct Haf as [af ->]. cbn [bind].
  change (dict_get (song_record name (PStr artists) album id transName
                                popularity) (lit "name") (PStr []))
    with name.
  change (dict_get (song_record name (PStr artists) album id transName
                                popularity) (lit "transName") (PStr []))
    with transName.
  change (dict_get (song_record name (PStr artists) album id transName
                                popularity) (lit "artists") (PStr []))
    with (PStr artists).
  change (dict_get (song_record name (PStr artists) album id transName
                                popularity) (lit "album") (PStr []))
    with album.
  change (dict_get (song_record name (PStr artists) album id transName
                                popularity) (lit "id") (PStr []))
    with id.
  change (dict_get (song_record name (PStr artists) album id transName
                                popularity) (lit "popularity") (PInt 0))
    with popularity.
  set (vars := [ (lit "name", name); (lit "trans_name", transName);
                 (lit "artists", PStr artists); (lit "artist_first", PStr af);
                 (lit "album", album); (lit "id", id);
                 (lit "popularity", popularity) ]).
  change (dict_get vars (lit "trans_name") PNone) with transName.
  assert (Hs : same_names vars blank_variables).
  { unfold vars, blank_variables, variable_names, same_names. cbn [map].
    repeat constructor; assumption. }
  pose proof (@preset_renders_blank key template (negb (truthy transName)) Hin)
    as Hb.
  rewrite <- (@same_names_format vars blank_variables Hs) in Hb.
  destruct (str_format _ vars); [reflexivity | discriminate Hb].
Qed.

Lemma presets_always_render_witness :
  is_ok (ChapterTemplate_format with_trans_template
           (song_record (PStr (lit "X")) (PStr (lit "A, B")) (PStr (lit "Al"))
                        (PInt 1) (PStr []) (PInt 0))) = true.
Proof.
  apply (@presets_always_render (lit "with_trans")); try reflexivity.
  right. left. reflexivity.
Defined.
